(** * BWT water-softener coordinator: a shallow embedding

    The development follows [custom_components/bwthaf/coordinator.py]:
    the class [BWTDataUpdateCoordinator] with its methods
    [_async_update_data], [_authenticate], [_get_main_data] and
    [_get_consumption_data], and the [available] property of
    [binary_sensor.py].

    Python dictionaries with string keys are [gmap string _]; JSON
    documents keep the order of their members (iteration order matters
    for the category loop); exceptions are values of a [result] monad. *)

From Stdlib Require Import ZArith String Ascii List Lia.
From Stdlib Require Import Floats.SpecFloat.
From stdpp Require Import gmap strings list fin_maps pretty.

Local Open Scope string_scope.
Local Open Scope Z_scope.

(** ** Exceptions and results *)

(** An exception is its class name and the text [str(err)] gives. *)
Inductive exn := Exn (cls : string) (msg : string).

Definition exn_str (e : exn) : string := let 'Exn _ msg := e in msg.

Definition UpdateFailed (msg : string) : exn := Exn "UpdateFailed" msg.

Inductive result (A : Type) :=
| Ok (a : A)
| Raise (e : exn).
Arguments Ok {A} a.
Arguments Raise {A} e.

#[export] Instance result_ret : MRet result := fun _ a => Ok a.
#[export] Instance result_bind : MBind result := fun _ _ f m =>
  match m with Ok a => f a | Raise e => Raise e end.

Definition is_ok {A} (r : result A) : bool :=
  match r with Ok _ => true | Raise _ => false end.

(** ** JSON documents as [json.loads] returns them *)

#[warnings="-register-all"]
Inductive json :=
| JNull
| JBool (b : bool)
| JInt (n : Z)
| JFloat (f : spec_float)
| JStr (s : string)
| JArr (items : list json)
| JObj (members : list (string * json)).

(** Python's [type(x).__name__]. *)
Definition type_name (j : json) : string :=
  match j with
  | JNull => "NoneType" | JBool _ => "bool" | JInt _ => "int"
  | JFloat _ => "float" | JStr _ => "str" | JArr _ => "list"
  | JObj _ => "dict"
  end.

(** Truth value of an object in a condition. *)
Definition truthy (j : json) : bool :=
  match j with
  | JNull => false
  | JBool b => b
  | JInt n => negb (n =? 0)
  | JFloat (S754_zero _) => false
  | JFloat _ => true
  | JStr s => negb (String.eqb s "")
  | JArr l => match l with [] => false | _ => true end
  | JObj l => match l with [] => false | _ => true end
  end.

Definition is_none (j : json) : bool :=
  match j with JNull => true | _ => false end.

Fixpoint assoc (k : string) (ms : list (string * json)) : option json :=
  match ms with
  | [] => None
  | (k', v) :: ms' => if String.eqb k k' then Some v else assoc k ms'
  end.

(** [j.get(k, d)]: only a dict has the method. *)
Definition dict_get (j : json) (k : string) (d : json) : result json :=
  match j with
  | JObj ms => Ok (default d (assoc k ms))
  | _ => Raise (Exn "AttributeError"
           (String.append "'" (String.append (type_name j)
              "' object has no attribute 'get'")))
  end.

(** [j.items()]. *)
Definition dict_items (j : json) : result (list (string * json)) :=
  match j with
  | JObj ms => Ok ms
  | _ => Raise (Exn "AttributeError"
           (String.append "'" (String.append (type_name j)
              "' object has no attribute 'items'")))
  end.

(** [len(j)]. *)
Definition py_len (j : json) : result Z :=
  match j with
  | JArr l => Ok (Z.of_nat (List.length l))
  | JStr s => Ok (Z.of_nat (String.length s))
  | JObj ms => Ok (Z.of_nat (List.length ms))
  | _ => Raise (Exn "TypeError"
           (String.append "object of type '" (String.append (type_name j)
              "' has no len()")))
  end.

(** [j[i]] for a literal index [i]; a JSON dict has string keys only, so
    an integer subscript is a [KeyError]. *)
Definition subscript (j : json) (i : nat) : result json :=
  match j with
  | JArr l =>
      match nth_error l i with
      | Some x => Ok x
      | None => Raise (Exn "IndexError" "list index out of range")
      end
  | JStr s =>
      match String.get i s with
      | Some c => Ok (JStr (String c EmptyString))
      | None => Raise (Exn "IndexError" "string index out of range")
      end
  | JObj _ => Raise (Exn "KeyError" (pretty i))
  | _ => Raise (Exn "TypeError"
           (String.append "'" (String.append (type_name j)
              "' object is not subscriptable")))
  end.

(** [s1 in s2] on strings. *)
Fixpoint contains (needle hay : string) : bool :=
  String.prefix needle hay ||
  match hay with
  | EmptyString => false
  | String _ rest => contains needle rest
  end.

(** ** The rollover-aware counter (lines 94-102 of [_async_update_data])

    [compute_increment last current] is the pair of the value stored
    under [water_increment] and the new [_last_water_consumption]. *)
Definition compute_increment (last current : Z) : Z * Z :=
  let incr :=
    if 0 <? last then
      if current <? last then current else current - last
    else 0 in
  (incr, current).

(** The increments of a run of observations, from a given baseline. *)
Fixpoint increments_from (last : Z) (vs : list Z) : list Z :=
  match vs with
  | [] => []
  | v :: vs' =>
      let '(incr, last') := compute_increment last v in
      incr :: increments_from last' vs'
  end.

(** [__init__] sets [_last_water_consumption = 0]. *)
Definition increments (vs : list Z) : list Z := increments_from 0 vs.

(** ** Library functions and constants the coordinator relies on

    [html.unescape], [json.loads], [json.dumps], [int] on strings,
    [datetime.strptime] and Home Assistant's [dt_util.as_utc] are
    library code; the coordinator is verified for every behaviour they
    may have.  A failing [strptime] raises [ValueError] ([None] here);
    [as_utc] may convert, raise [ValueError], or raise something else. *)

Record naive_datetime := {
  dt_year : Z; dt_month : Z; dt_day : Z;
  dt_hour : Z; dt_minute : Z; dt_second : Z; dt_microsecond : Z
}.

Inductive conversion :=
| Converted (utc : Z)
| ConvValueError
| ConvOtherError.

Class PyLib := {
  html_unescape : string -> string;
  json_loads : string -> result json;
  json_dumps : json -> string;
  int_of_str : string -> result Z;
  strptime : string -> string -> option naive_datetime;
  as_utc : naive_datetime -> conversion
}.

(** [const.py] is not among the sources; its default is a parameter. *)
Class Const := { DEFAULT_INTERVAL_MAIN : Z }.

(** ** Snapshots *)

(** A snapshot field holds a JSON value passed through as is ([None] is
    [JNull]) or a UTC instant (microseconds since the epoch). *)
Inductive value :=
| VJson (j : json)
| VTime (utc : Z).

Abbreviation snapshot := (gmap string value).

Definition VNone : value := VJson JNull.
Definition VInt (n : Z) : value := VJson (JInt n).

(** [d.update(other)]: the entries of [other] win. *)
Definition dict_update (d other : snapshot) : snapshot := other ∪ d.

(** [for x in l: s = f(s, x)], stopping at the first exception. *)
Fixpoint for_each {A S : Type} (f : S -> A -> result S) (l : list A) (s : S)
  : result S :=
  match l with
  | [] => Ok s
  | a :: l' => s' ← f s a; for_each f l' s'
  end.

(** ** The network

    What the vendor's site answers during one cycle.  A request is
    identified by the part of it that varies: the receipt line key in
    the URL, or the posted [data] field.  A page is the sequence of its
    [div] elements in document order, each with its attributes. *)

Record response := {
  status_code : Z;
  response_json : result json
}.

Record tag := { tag_attrs : list (string * string) }.

Abbreviation soup := (list tag).

Record anchor := {
  anchor_href : string;
  (** [None]: no [div.informations] inside the link; [Some b]: whether a
      [span] in it matches the serial number pattern. *)
  anchor_serial : option bool
}.

Record world := {
  login_post : result Z;
  dashboard_get : result (list anchor);
  summary_get : string -> result response;
  device_get : string -> result soup;
  load_conso_post : string -> result soup;
  (** [hass.loop.time()] at the interval test and after the main fetch;
      the source reads a float, of which only order and difference are
      used. *)
  loop_time : Z;
  loop_time' : Z
}.

Fixpoint attr_lookup (name : string) (attrs : list (string * string))
  : option string :=
  match attrs with
  | [] => None
  | (n, v) :: rest => if String.eqb name n then Some v else attr_lookup name rest
  end.

(** [tag.get(name, default)]. *)
Definition tag_get (t : tag) (name dflt : string) : string :=
  default dflt (attr_lookup name (tag_attrs t)).

(** [soup.find('div', {name: v})]: the first [div] whose attribute
    [name] is [v]. *)
Fixpoint find_div (name v : string) (page : soup) : option tag :=
  match page with
  | [] => None
  | t :: rest =>
      match attr_lookup name (tag_attrs t) with
      | Some v' => if String.eqb v' v then Some t else find_div name v rest
      | None => find_div name v rest
      end
  end.

(** The text an f-string gives for [self.receipt_line_key]. *)
Definition key_text (key : option string) : string := default "None" key.

(** ** [_get_main_data] *)

Definition code_mapping : list (string * string) :=
  [ ("resinVol", "resin_vol");
    ("inHardness", "in_hardness");
    ("outHardness", "out_hardness");
    ("pressure", "pressure");
    ("salt", "salt");
    ("volOK", "vol_ok");
    ("rssiLevel", "wifi_signal") ].

(** [code in code_mapping] followed by [code_mapping[code]]: a list or a
    dict is unhashable, any other non-string is simply not a key. *)
Definition mapped_key (code : json) : result (option string) :=
  match code with
  | JStr s => Ok (attr_lookup s code_mapping)
  | JArr _ | JObj _ =>
      Raise (Exn "TypeError"
        (String.append "unhashable type: '"
           (String.append (type_name code) "'")))
  | _ => Ok None
  end.

(** The body of the inner loop, lines 196-204. *)
Definition main_item (res : snapshot) (item : json) : result snapshot :=
  code ← dict_get item "code" JNull;
  v ← dict_get item "value" JNull;
  if truthy code && negb (is_none v) then
    mk ← mapped_key code;
    match mk with
    | Some k => Ok (<[k := VJson v]> res)
    | None => Ok res
    end
  else Ok res.

(** The body of the outer loop, lines 193-204. *)
Definition main_category (res : snapshot) (cat : string * json)
  : result snapshot :=
  match cat.2 with
  | JArr items => for_each main_item items res
  | _ => Ok res
  end.

Definition _get_main_data (w : world) (key : option string) : result snapshot :=
  rsp ← summary_get w (key_text key);
  if negb (status_code rsp =? 200) then
    Raise (UpdateFailed "Failed to fetch main data")
  else
    data ← response_json rsp;
    online ← dict_get data "online" (JBool false);
    d ← dict_get data "data" (JObj []);
    standby ← dict_get d "standBy" (JBool false);
    d' ← dict_get data "data" (JObj []);
    salt ← dict_get d' "salt" JNull;
    let res : snapshot :=
      <["salt" := VJson salt]>
        (<["standby" := VJson standby]>
           (<["online" := VJson online]> ∅)) in
    categories ← dict_get data "dataCategories" (JObj []);
    cats ← dict_items categories;
    for_each main_category cats res.

(** ** [_get_consumption_data] *)

Section Consumption.
Context `{PyLib}.

Definition formats : list string :=
  [ "%Y-%m-%dT%H:%M:%S.%f"; "%Y-%m-%d %H:%M:%S";
    "%Y-%m-%dT%H:%M:%S"; "%Y-%m-%d" ].

(** The [for fmt in ...: try ... except ValueError: continue ... else]
    of lines 258-267, inside the [except Exception] of lines 268-270:
    the value left under [refresh_date]. *)
Fixpoint try_formats (s : string) (fmts : list string) : value :=
  match fmts with
  | [] => VNone
  | fmt :: rest =>
      match strptime s fmt with
      | None => try_formats s rest
      | Some naive_dt =>
          match as_utc naive_dt with
          | Converted utc => VTime utc
          | ConvValueError => try_formats s rest
          | ConvOtherError => VNone
          end
      end
  end.

(** [strptime] of a non-string is a [TypeError], which the outer
    handler turns into [None]. *)
Definition parse_refresh_date (refresh_date_str : json) : value :=
  match refresh_date_str with
  | JStr s => try_formats s formats
  | _ => VNone
  end.

(** Lines 285-290. *)
Definition parse_last_update (last_date : json) : value :=
  match last_date with
  | JStr s =>
      match strptime s "%Y-%m-%d" with
      | Some naive_dt =>
          match as_utc naive_dt with
          | Converted utc => VTime utc
          | _ => VNone
          end
      | None => VNone
      end
  | _ => VNone
  end.

(** [int(x)]. *)
Definition py_int (j : json) : result Z :=
  match j with
  | JBool b => Ok (if b then 1 else 0)
  | JInt n => Ok n
  | JFloat (S754_zero _) => Ok 0
  | JFloat (S754_infinity _) =>
      Raise (Exn "OverflowError" "cannot convert float infinity to integer")
  | JFloat S754_nan =>
      Raise (Exn "ValueError" "cannot convert float NaN to integer")
  | JFloat (S754_finite sign m e) =>
      let a := Z.shiftl (Z.pos m) e in
      Ok (if sign then - a else a)
  | JStr s => int_of_str s
  | _ =>
      Raise (Exn "TypeError"
        (String.append
           "int() argument must be a string, a bytes-like object or a real number, not '"
           (String.append (type_name j) "'")))
  end.

(** [int(x) if x else 0]. *)
Definition int_or_zero (j : json) : result Z :=
  if truthy j then py_int j else Ok 0.

(** [x if isinstance(x, bool) else False]. *)
Definition bool_or_false (j : json) : json :=
  match j with
  | JBool b => JBool b
  | _ => JBool false
  end.

(** Lines 275-290, for [first_line = lines[0]]. *)
Definition parse_first_line (first_line : json) (salt_per_regen : Z)
    (res : snapshot) : result snapshot :=
  n ← py_len first_line;
  if 5 <=? n then
    f0 ← subscript first_line 0;
    f1 ← subscript first_line 1;
    regen_count ← int_or_zero f1;
    f2 ← subscript first_line 2;
    f3 ← subscript first_line 3;
    water_consumption ← int_or_zero f3;
    f4 ← subscript first_line 4;
    Ok (<["last_update" := parse_last_update f0]>
       (<["salt_consumption" := VInt (regen_count * salt_per_regen)]>
       (<["salt_alarm" := VJson (bool_or_false f4)]>
       (<["water_consumption" := VInt water_consumption]>
       (<["power_outage" := VJson (bool_or_false f2)]>
       (<["regen_count" := VInt regen_count]>
       (<["last_date" := VJson f0]> res)))))))
  else Ok res.

(** Lines 254-270. *)
Definition refresh_step (dataset_json : json) (res : snapshot)
  : result snapshot :=
  refresh_date_str ← dict_get dataset_json "refreshDate" JNull;
  if truthy refresh_date_str then
    Ok (<["refresh_date" := parse_refresh_date refresh_date_str]> res)
  else Ok res.

(** Lines 273-293. *)
Definition lines_step (dataset_json : json) (salt_per_regen : Z)
    (res : snapshot) : result snapshot :=
  lines ← dict_get dataset_json "lines" (JArr []);
  if truthy lines then
    first_line ← subscript lines 0;
    parse_first_line first_line salt_per_regen res
  else Ok res.

(** Lines 249-293, on the decoded dataset. *)
Definition parse_dataset (dataset_json : json) (salt_value : string)
  : result snapshot :=
  salt_per_regen ← int_of_str salt_value;
  res ← refresh_step dataset_json {[ "salt_per_regen" := VInt salt_per_regen ]};
  lines_step dataset_json salt_per_regen res.

(** Lines 243-293, once the graph container is found. *)
Definition parse_graph (graph_div : tag) : result snapshot :=
  let dataset := tag_get graph_div "data-chart-dataset-value" "{}" in
  let salt_value := tag_get graph_div "data-chart-salt-value" "0" in
  dataset_json ← json_loads (html_unescape dataset);
  parse_dataset dataset_json salt_value.

(** Lines 211-238: the two requests, up to the search for the graph
    container in the returned fragment. *)
Definition fetch_graph (w : world) (key : option string)
  : result (option tag) :=
  page ← device_get w (key_text key);
  match find_div "data-controller" "live" page with
  | None => Raise (UpdateFailed "Live div not found")
  | Some live_div =>
      let props_value := tag_get live_div "data-live-props-value" "" in
      let props_decoded := html_unescape props_value in
      props ← json_loads props_decoded;
      let payload_data :=
        JObj [("props", props); ("updated", JObj []); ("args", JObj [])] in
      fragment ← load_conso_post w (json_dumps payload_data);
      Ok (find_div "id" "graph_device" fragment)
  end.

Definition _get_consumption_data (w : world) (key : option string)
  : result snapshot :=
  graph ← fetch_graph w key;
  match graph with
  | None => Ok ∅
  | Some graph_div => parse_graph graph_div
  end.

End Consumption.

(** ** The coordinator object *)

Record config_entry := {
  serial_number : string;
  (** [entry.data.get(CONF_INTERVAL_MAIN)] and
      [entry.options.get(CONF_INTERVAL_MAIN)], when set. *)
  data_interval_main : option Z;
  options_interval_main : option Z
}.

Record coordinator := {
  receipt_line_key : option string;
  _last_main_update : Z;
  _last_water_consumption : Z;
  (** [self.data], the published snapshot ([None] until a cycle succeeds),
      and [self.last_update_success]; both are written by the host's
      [DataUpdateCoordinator], see [async_refresh]. *)
  data : option snapshot;
  last_update_success : bool
}.

(** [__init__]. *)
Definition init : coordinator :=
  {| receipt_line_key := None; _last_main_update := 0;
     _last_water_consumption := 0; data := None;
     last_update_success := true |}.

Definition set_receipt_line_key (k : option string) (c : coordinator) :=
  {| receipt_line_key := k; _last_main_update := _last_main_update c;
     _last_water_consumption := _last_water_consumption c;
     data := data c; last_update_success := last_update_success c |}.

Definition set_last_main_update (t : Z) (c : coordinator) :=
  {| receipt_line_key := receipt_line_key c; _last_main_update := t;
     _last_water_consumption := _last_water_consumption c;
     data := data c; last_update_success := last_update_success c |}.

Definition set_last_water_consumption (v : Z) (c : coordinator) :=
  {| receipt_line_key := receipt_line_key c;
     _last_main_update := _last_main_update c;
     _last_water_consumption := v;
     data := data c; last_update_success := last_update_success c |}.

Definition publish (d : snapshot) (c : coordinator) :=
  {| receipt_line_key := receipt_line_key c;
     _last_main_update := _last_main_update c;
     _last_water_consumption := _last_water_consumption c;
     data := Some d; last_update_success := true |}.

Definition fail_update (c : coordinator) :=
  {| receipt_line_key := receipt_line_key c;
     _last_main_update := _last_main_update c;
     _last_water_consumption := _last_water_consumption c;
     data := data c; last_update_success := false |}.

(** The jobs a cycle hands to [hass.async_add_executor_job], in order. *)
Inductive job := Authenticate | GetMainData | GetConsumptionData.

(** ** [_authenticate] *)

Fixpoint string_drop (n : nat) (s : string) : string :=
  match n, s with
  | O, _ => s
  | S n', String _ rest => string_drop n' rest
  | S _, EmptyString => EmptyString
  end.

(** The longest run of characters other than [&] at the head of [s]. *)
Fixpoint until_amp (s : string) : string :=
  match s with
  | EmptyString => EmptyString
  | String c rest =>
      if Ascii.eqb c "&" then EmptyString else String c (until_amp rest)
  end.

(** [re.search(r'receiptLineKey=([^&]+)', href)], group 1 of the
    leftmost match. *)
Fixpoint search_key (href : string) : option string :=
  match href with
  | EmptyString => None
  | String _ rest =>
      let v :=
        if String.prefix "receiptLineKey=" href
        then until_amp (string_drop 15 href) else EmptyString in
      match v with
      | EmptyString => search_key rest
      | _ => Some v
      end
  end.

(** [find_all('a', href=re.compile(r'/device\?receiptLineKey='))]. *)
Definition device_links (anchors : list anchor) : list anchor :=
  List.filter (fun a => contains "/device?receiptLineKey=" (anchor_href a)) anchors.

(** The loop of lines 145-155: the key of the first link that names the
    serial number and carries a key. *)
Fixpoint find_receipt_line_key (links : list anchor) : option string :=
  match links with
  | [] => None
  | link :: rest =>
      match anchor_serial link with
      | Some true =>
          match search_key (anchor_href link) with
          | Some k => Some k
          | None => find_receipt_line_key rest
          end
      | _ => find_receipt_line_key rest
      end
  end.

Definition _authenticate (entry : config_entry) (w : world) (c : coordinator)
  : coordinator * result unit :=
  match login_post w with
  | Raise e => (c, Raise e)
  | Ok status =>
      if negb (status =? 200) then
        (c, Raise (UpdateFailed "Authentication failed"))
      else
        match dashboard_get w with
        | Raise e => (c, Raise e)
        | Ok anchors =>
            match find_receipt_line_key (device_links anchors) with
            | Some k => (set_receipt_line_key (Some k) c, Ok ())
            | None =>
                (c, Raise (UpdateFailed
                   (String.append "Serial number "
                      (String.append (serial_number entry)
                         " not found in dashboard"))))
            end
        end
  end.

(** ** [_async_update_data] *)

Record run := {
  run_state : coordinator;
  run_result : result snapshot;
  run_jobs : list job
}.

Section Cycle.
Context `{PyLib} `{Const}.

(** [not self.receipt_line_key] is false: a key is held, and it is not
    the empty string. *)
Definition token_held (c : coordinator) : bool :=
  match receipt_line_key c with
  | Some k => negb (String.eqb k "")
  | None => false
  end.

(** Lines 60-61. *)
Definition ensure_auth (entry : config_entry) (w : world) (c : coordinator)
  : coordinator * result unit * list job :=
  if token_held c then (c, Ok (), [])
  else (_authenticate entry w c, [Authenticate]).

(** Line 64: [dict(self.data) if self.data else {}]. *)
Definition previous_data (c : coordinator) : snapshot :=
  default ∅ (data c).

(** Lines 67-70. *)
Definition interval_main (entry : config_entry) : Z :=
  default (default DEFAULT_INTERVAL_MAIN (data_interval_main entry))
          (options_interval_main entry).

(** The test of line 72. *)
Definition main_due (entry : config_entry) (w : world) (c : coordinator)
  : bool :=
  interval_main entry <? loop_time w - _last_main_update c.

(** Lines 72-80. *)
Definition main_stage (entry : config_entry) (w : world) (c : coordinator)
    (d : snapshot) : coordinator * snapshot * list job :=
  if main_due entry w c then
    match _get_main_data w (receipt_line_key c) with
    | Ok main_data =>
        (set_last_main_update (loop_time' w) c, dict_update d main_data,
         [GetMainData])
    | Raise _ => (c, d, [GetMainData])
    end
  else (c, d, []).

(** Lines 83-89. *)
Definition consumption_stage (w : world) (c : coordinator) (d : snapshot)
  : snapshot :=
  match _get_consumption_data w (receipt_line_key c) with
  | Ok consumption_data => dict_update d consumption_data
  | Raise _ => d
  end.

(** Lines 92-102.  The field [water_consumption] is only ever written
    by [parse_first_line], with an [int] (lemma [cycle_keeps_water_int]
    below); the comparison and subtraction are modelled on integers,
    and any other value is reported as the [TypeError] an ordered
    comparison with it gives. *)
Definition water_stage (c : coordinator) (d : snapshot)
  : coordinator * result snapshot :=
  match d !! "water_consumption" with
  | None => (c, Ok d)
  | Some (VJson (JInt current)) =>
      let '(incr, last) := compute_increment (_last_water_consumption c) current in
      (set_last_water_consumption last c,
       Ok (<["water_increment" := VInt incr]> d))
  | Some _ =>
      (c, Raise (Exn "TypeError" "'<' not supported for water_consumption"))
  end.

(** Lines 64-102: the dict [data] as it stands before the check of
    line 105, with the state and the jobs so far. *)
Definition merge (entry : config_entry) (w : world) (c : coordinator)
  : coordinator * result snapshot * list job :=
  let '(c2, d1, jobs) := main_stage entry w c (previous_data c) in
  let d2 := consumption_stage w c2 d1 in
  (water_stage c2 d2, (jobs ++ [GetConsumptionData])%list).

(** Lines 105-108. *)
Definition sufficiency (d : snapshot) : result snapshot :=
  if (size d <? 3)%nat then Raise (UpdateFailed "Insufficient data received")
  else Ok d.

(** The body of the [try], lines 59-108. *)
Definition try_body (entry : config_entry) (w : world) (c : coordinator)
  : run :=
  let '(c1, auth, jobs1) := ensure_auth entry w c in
  match auth with
  | Raise err => {| run_state := c1; run_result := Raise err; run_jobs := jobs1 |}
  | Ok _ =>
      let '(c3, merged, jobs2) := merge entry w c1 in
      {| run_state := c3;
         run_result := d ← merged; sufficiency d;
         run_jobs := (jobs1 ++ jobs2)%list |}
  end.

(** The test of line 113. *)
Definition auth_marker (err : exn) : bool :=
  contains "401" (exn_str err) || contains "403" (exn_str err).

(** The [except Exception] handler, lines 110-115: the state it leaves
    and the exception it raises. *)
Definition on_error (c : coordinator) (err : exn) : coordinator * exn :=
  (if auth_marker err then set_receipt_line_key None c else c,
   UpdateFailed (String.append "Error communicating with API: " (exn_str err))).

Definition _async_update_data (entry : config_entry) (w : world)
    (c : coordinator) : run :=
  let r := try_body entry w c in
  match run_result r with
  | Ok d => r
  | Raise err =>
      let '(c', err') := on_error (run_state r) err in
      {| run_state := c'; run_result := Raise err'; run_jobs := run_jobs r |}
  end.

(** The host's [DataUpdateCoordinator] around [_async_update_data]: a
    returned snapshot becomes [self.data]; on [UpdateFailed] the old
    [self.data] stays and [last_update_success] is cleared. *)
Definition async_refresh (entry : config_entry) (w : world)
    (c : coordinator) : coordinator :=
  let r := _async_update_data entry w c in
  match run_result r with
  | Ok d => publish d (run_state r)
  | Raise _ => fail_update (run_state r)
  end.

(** [available] of [binary_sensor.py]. *)
Definition available (c : coordinator) : bool :=
  last_update_success c && bool_decide (is_Some (data c)).

(** The error a cycle reports when the floor of three fields is missed. *)
Definition insufficient_data : exn :=
  UpdateFailed "Error communicating with API: Insufficient data received".

(** What the two fetches of this cycle bring: the stages of lines
    72-89 run on an empty dict. *)
Definition fetched_updates (entry : config_entry) (w : world)
    (c : coordinator) : snapshot :=
  let '(c2, d1, _) := main_stage entry w c ∅ in
  consumption_stage w c2 d1.

End Cycle.

(** ** Fixtures: a small library instance and a few worlds for the examples *)

Module Fixture.

Definition documents : list (string * json) :=
  [ ("{}", JObj []);
    ("props", JObj [("receiptLineKey", JStr "K1")]);
    ("day", JObj
       [ ("refreshDate", JStr "2025-11-27");
         ("lines", JArr [ JArr [JStr "2025-11-27"; JInt 2; JBool false;
                                JInt 150; JBool false] ]) ]);
    ("midnight", JObj
       [ ("refreshDate", JStr "2025-11-27");
         ("lines", JArr [ JArr [JStr "2025-11-27"; JInt 0; JBool false;
                                JInt 0; JBool false] ]) ]);
    ("evening", JObj
       [ ("refreshDate", JStr "2025-11-27");
         ("lines", JArr [ JArr [JStr "2025-11-27"; JInt 2; JBool false;
                                JInt 180; JBool false] ]) ]);
    ("bad-date", JObj
       [ ("refreshDate", JStr "yesterday");
         ("lines", JArr [ JArr [JStr "2025-11-27"; JInt 2; JBool false;
                                JInt 150; JBool false] ]) ]);
    ("bad-line", JObj
       [ ("refreshDate", JStr "yesterday");
         ("lines", JArr [ JArr [JStr "2025-11-27"; JArr [JInt 1]; JBool false;
                                JInt 150; JBool false] ]) ]) ].

Definition loads (s : string) : result json :=
  match assoc s documents with
  | Some j => Ok j
  | None => Raise (Exn "JSONDecodeError" "Expecting value: line 1 column 1 (char 0)")
  end.

Definition digit (c : ascii) : option Z :=
  let n := Z.of_nat (nat_of_ascii c) in
  if (48 <=? n) && (n <=? 57) then Some (n - 48) else None.

Fixpoint digits (s : string) (acc : Z) : option Z :=
  match s with
  | EmptyString => Some acc
  | String c rest =>
      match digit c with
      | Some d => digits rest (10 * acc + d)
      | None => None
      end
  end.

Definition int_digits (s : string) : result Z :=
  match s with
  | EmptyString => Raise (Exn "ValueError" "invalid literal for int() with base 10: ''")
  | _ =>
      match digits s 0 with
      | Some n => Ok n
      | None => Raise (Exn "ValueError" "invalid literal for int() with base 10")
      end
  end.

(** Recognises the one date the fixtures use, in the date-only format. *)
Definition strptime_day (s fmt : string) : option naive_datetime :=
  if String.eqb s "2025-11-27" && String.eqb fmt "%Y-%m-%d" then
    Some {| dt_year := 2025; dt_month := 11; dt_day := 27; dt_hour := 0;
            dt_minute := 0; dt_second := 0; dt_microsecond := 0 |}
  else None.

(** A host in the UTC zone: 2025-11-27 is day 20419 of the epoch. *)
Definition as_utc_day (dt : naive_datetime) : conversion :=
  if (dt_year dt =? 2025) && (dt_month dt =? 11) && (dt_day dt =? 27) then
    Converted (20419 * 86400 * 1000000
               + ((dt_hour dt * 60 + dt_minute dt) * 60 + dt_second dt) * 1000000
               + dt_microsecond dt)
  else ConvOtherError.

#[export] Instance lib : PyLib := {
  html_unescape := fun s => s;
  json_loads := loads;
  json_dumps := fun _ => "payload";
  int_of_str := int_digits;
  strptime := strptime_day;
  as_utc := as_utc_day
}.

#[export] Instance const : Const := { DEFAULT_INTERVAL_MAIN := 3600 }.

Definition entry : config_entry :=
  {| serial_number := "SN401"; data_interval_main := None;
     options_interval_main := None |}.

Definition connection_error {A} : result A :=
  Raise (Exn "ConnectionError" "Max retries exceeded").

(** Nothing answers. *)
Definition offline : world :=
  {| login_post := connection_error; dashboard_get := connection_error;
     summary_get := fun _ => connection_error;
     device_get := fun _ => connection_error;
     load_conso_post := fun _ => connection_error;
     loop_time := 10000; loop_time' := 10001 |}.

Definition summary : json :=
  JObj [ ("online", JBool true);
         ("data", JObj [("standBy", JBool false)]);
         ("dataCategories", JObj
            [ ("config", JArr
                 [ JObj [("code", JStr "resinVol"); ("value", JInt 18)];
                   JObj [("code", JStr "firmware"); ("value", JStr "1.2")];
                   JObj [("code", JStr "pressure"); ("value", JNull)] ]);
              ("misc", JStr "n/a") ]) ].

Definition live_page : soup :=
  [ {| tag_attrs := [("class", "header")] |};
    {| tag_attrs := [("data-controller", "live");
                     ("data-live-props-value", "props")] |} ].

Definition graph (dataset : string) : soup :=
  [ {| tag_attrs := [("id", "graph_device");
                     ("data-chart-dataset-value", dataset);
                     ("data-chart-salt-value", "120")] |} ].

(** The site answers everything; the chart carries [dataset]. *)
Definition online (dataset : string) : world :=
  {| login_post := Ok 200;
     dashboard_get := Ok
       [ {| anchor_href := "/device?receiptLineKey=K0&x=1";
            anchor_serial := Some false |};
         {| anchor_href := "/device?receiptLineKey=K1&x=1";
            anchor_serial := Some true |} ];
     summary_get := fun _ =>
       Ok {| status_code := 200; response_json := Ok summary |};
     device_get := fun _ => Ok live_page;
     load_conso_post := fun _ => Ok (graph dataset);
     loop_time := 10000; loop_time' := 10001 |}.

(** The summary endpoint fails, the consumption pages answer. *)
Definition main_down (dataset : string) : world :=
  {| login_post := Ok 200; dashboard_get := Ok [];
     summary_get := fun _ =>
       Ok {| status_code := 500; response_json := connection_error |};
     device_get := fun _ => Ok live_page;
     load_conso_post := fun _ => Ok (graph dataset);
     loop_time := 10000; loop_time' := 10001 |}.

(** The dashboard lists no device. *)
Definition no_device : world :=
  {| login_post := Ok 200; dashboard_get := Ok [];
     summary_get := fun _ => connection_error;
     device_get := fun _ => connection_error;
     load_conso_post := fun _ => connection_error;
     loop_time := 10000; loop_time' := 10001 |}.

(** The fragment comes back without the graph container. *)
Definition no_graph : world :=
  {| login_post := Ok 200; dashboard_get := Ok [];
     summary_get := fun _ => connection_error;
     device_get := fun _ => Ok live_page;
     load_conso_post := fun _ => Ok [ {| tag_attrs := [("id", "menu")] |} ];
     loop_time := 10000; loop_time' := 10001 |}.

Definition with_key (c : coordinator) : coordinator :=
  set_receipt_line_key (Some "K1") c.

(** What the consumption extractor returns on the dataset "day". *)
Definition day_fields : snapshot :=
  <["last_update" := VTime 1764201600000000]>
    (<["salt_consumption" := VInt 240]>
    (<["salt_alarm" := VJson (JBool false)]>
    (<["water_consumption" := VInt 150]>
    (<["power_outage" := VJson (JBool false)]>
    (<["regen_count" := VInt 2]>
    (<["last_date" := VJson (JStr "2025-11-27")]>
    (<["refresh_date" := VTime 1764201600000000]>
       {[ "salt_per_regen" := VInt 120 ]}))))))).

(** A snapshot of five fields. *)
Definition five : snapshot :=
  <["water_increment" := VInt 7]>
    (<["water_consumption" := VInt 100]>
       (<["salt" := VNone]>
          (<["standby" := VJson (JBool false)]>
             (<["online" := VJson (JBool true)]> ∅)))).

(** The coordinator after that cycle. *)
Definition warm : coordinator :=
  {| receipt_line_key := Some "K1"; _last_main_update := 0;
     _last_water_consumption := 100; data := Some five;
     last_update_success := true |}.

End Fixture.

(** ** Vocabulary of the statements *)

(** The dataset with one member left out. *)
Definition without_member (k : string) (j : json) : json :=
  match j with
  | JObj ms => JObj (List.filter (fun m => negb (String.eqb k m.1)) ms)
  | _ => j
  end.

(** The items of the list-valued categories, in iteration order. *)
Definition category_items (cats : list (string * json)) : list json :=
  flat_map (fun cat => match cat.2 with JArr items => items | _ => [] end) cats.

(** [renames item k v]: the item's code is in the catalog with
    canonical key [k], and its value [v] is not null. *)
Definition renames (item : json) (k : string) (v : json) : Prop :=
  exists code,
    dict_get item "code" JNull = Ok (JStr code)
    /\ attr_lookup code code_mapping = Some k
    /\ dict_get item "value" JNull = Ok v
    /\ v <> JNull.

(** The same, computed. *)
Definition item_write (item : json) : option (string * json) :=
  match item with
  | JObj ms =>
      match default JNull (assoc "code" ms) with
      | JStr code =>
          let v := default JNull (assoc "value" ms) in
          if is_none v then None
          else match attr_lookup code code_mapping with
               | Some k => Some (k, v)
               | None => None
               end
      | _ => None
      end
  | _ => None
  end.

Definition apply_write (res : snapshot) (item : json) : snapshot :=
  match item_write item with
  | Some (k, v) => <[k := VJson v]> res
  | None => res
  end.

(** The value of the last item of [items] that writes [k]. *)
Fixpoint last_write (k : string) (items : list json) : option json :=
  match items with
  | [] => None
  | item :: rest =>
      match last_write k rest with
      | Some v => Some v
      | None =>
          match item_write item with
          | Some (k', v) => if String.eqb k' k then Some v else None
          | None => None
          end
      end
  end.

Definition base_keys : list string := ["online"; "standby"; "salt"].

(** The three fields read off the top level of the summary. *)
Definition main_base (online standby salt : json) : snapshot :=
  <["salt" := VJson salt]>
    (<["standby" := VJson standby]> (<["online" := VJson online]> ∅)).

Definition water_int (d : snapshot) : Prop :=
  forall v, d !! "water_consumption" = Some v -> exists n, v = VInt n.

(** ** The binary sensors of [binary_sensor.py] *)

(** [is_on]: [None] while nothing is published, else
    [coordinator.data.get(sensor_type, False)]. *)
Definition is_on (c : coordinator) (sensor_type : string) : option value :=
  match data c with
  | None => None
  | Some d => Some (default (VJson (JBool false)) (d !! sensor_type))
  end.

(** [_attr_unique_id], the f-string of the serial number, an underscore
    and the sensor type. *)
Definition unique_id (serial sensor_type : string) : string :=
  String.append serial (String.append "_" sensor_type).

(** ** Runs of cycles *)

Section Runs.
Context `{PyLib} `{Const}.

(** The host calls the coordinator once per tick; [ws] is what the site
    answers at each tick. *)
Fixpoint run_cycles (entry : config_entry) (ws : list world)
    (c : coordinator) : coordinator :=
  match ws with
  | [] => c
  | w :: ws' => run_cycles entry ws' (async_refresh entry w c)
  end.

End Runs.

(** ** Further vocabulary *)

(** The same world with another answer of the summary endpoint. *)
Definition with_summary_get (f : string -> result response) (w : world)
  : world :=
  {| login_post := login_post w; dashboard_get := dashboard_get w;
     summary_get := f; device_get := device_get w;
     load_conso_post := load_conso_post w;
     loop_time := loop_time w; loop_time' := loop_time' w |}.

(** A link the loop of [_authenticate] stops at: its information block
    names the serial number and its target carries a key. *)
Definition qualifies (link : anchor) : bool :=
  match anchor_serial link with
  | Some true =>
      match search_key (anchor_href link) with
      | Some _ => true
      | None => false
      end
  | _ => false
  end.

(** The fields [parse_first_line] writes. *)
Definition line_fields : list string :=
  [ "last_date"; "regen_count"; "power_outage"; "water_consumption";
    "salt_alarm"; "salt_consumption"; "last_update" ].

(** Every key [_get_consumption_data] can write. *)
Definition consumption_keys : list string :=
  "salt_per_regen" :: "refresh_date" :: line_fields.

(** Every key [_get_main_data] can write. *)
Definition main_keys : list string :=
  [ "online"; "standby"; "salt"; "resin_vol"; "in_hardness"; "out_hardness";
    "pressure"; "vol_ok"; "wifi_signal" ].

Definition int_fields : list string :=
  [ "salt_per_regen"; "regen_count"; "water_consumption"; "salt_consumption";
    "water_increment" ].

Definition bool_fields : list string := [ "power_outage"; "salt_alarm" ].

Definition time_fields : list string := [ "refresh_date"; "last_update" ].

Definition is_int (v : value) : Prop := exists n, v = VInt n.
Definition is_bool (v : value) : Prop := exists b, v = VJson (JBool b).
Definition is_time_or_none (v : value) : Prop :=
  v = VNone \/ exists utc, v = VTime utc.

(** The fields the coordinator computes itself hold the type it gives
    them. *)
Definition typed (d : snapshot) : Prop :=
  forall k v, d !! k = Some v ->
    (In k int_fields -> is_int v)
    /\ (In k bool_fields -> is_bool v)
    /\ (In k time_fields -> is_time_or_none v).

(** What holds of the coordinator between two cycles. *)
Definition consistent (c : coordinator) : Prop :=
  receipt_line_key c <> Some ""
  /\ match data c with
     | None => _last_water_consumption c = 0
     | Some d =>
         (3 <= size d)%nat
         /\ typed d
         /\ match d !! "water_consumption" with
            | Some v =>
                v = VInt (_last_water_consumption c)
                /\ is_Some (d !! "water_increment")
            | None => _last_water_consumption c = 0
            end
     end.

Definition total (l : list Z) : Z := fold_right Z.add 0 l.

(** The readings [vs] never fall, starting from [last]. *)
Fixpoint ascending (last : Z) (vs : list Z) : Prop :=
  match vs with
  | [] => True
  | v :: vs' => last <= v /\ ascending v vs'
  end.

Section ConsumptionVocabulary.
Context `{PyLib}.

(** The dict after the refresh-date step (lines 254-270). *)
Definition with_refresh (refresh : json) (res : snapshot) : snapshot :=
  if truthy refresh
  then <["refresh_date" := parse_refresh_date refresh]> res
  else res.

(** The dict after a first line of five positions or more (lines
    277-290). *)
Definition with_line (f0 f2 f4 : json) (regen_count water salt_per_regen : Z)
    (res : snapshot) : snapshot :=
  <["last_update" := parse_last_update f0]>
    (<["salt_consumption" := VInt (regen_count * salt_per_regen)]>
    (<["salt_alarm" := VJson (bool_or_false f4)]>
    (<["water_consumption" := VInt water]>
    (<["power_outage" := VJson (bool_or_false f2)]>
    (<["regen_count" := VInt regen_count]>
    (<["last_date" := VJson f0]> res)))))).

(** One attempt of the loop over the formats fails and lets the loop go
    on: [strptime] or [as_utc] raises [ValueError]. *)
Definition format_fails (s fmt : string) : Prop :=
  match strptime s fmt with
  | None => True
  | Some naive_dt => as_utc naive_dt = ConvValueError
  end.

End ConsumptionVocabulary.

(** Further fixtures. *)
Module MoreFixtures.

(** The world [Fixture.online "day"] with another summary document. *)
Definition with_summary (j : json) : world :=
  with_summary_get
    (fun _ => Ok {| status_code := 200; response_json := Ok j |})
    (Fixture.online "day").

Definition resin (n : Z) : json :=
  JObj [("code", JStr "resinVol"); ("value", JInt n)].

(** The resin volume is listed twice. *)
Definition summary_twice : json :=
  JObj [ ("online", JBool true);
         ("data", JObj [("standBy", JBool false)]);
         ("dataCategories", JObj
            [ ("config", JArr [resin 18]);
              ("telemetry", JArr [resin 20]) ]) ].

(** A category lists a number among its items. *)
Definition summary_bad : json :=
  JObj [ ("online", JBool true);
         ("data", JObj [("standBy", JBool false)]);
         ("dataCategories", JObj [ ("config", JArr [resin 18; JInt 1]) ]) ].

(** Neither [data] nor [dataCategories]. *)
Definition summary_bare : json := JObj [ ("online", JBool true) ].

(** A library whose [strptime] accepts everything and whose [as_utc]
    overflows. *)
Definition overflowing : PyLib :=
  {| html_unescape := fun s => s;
     json_loads := Fixture.loads;
     json_dumps := fun _ => "payload";
     int_of_str := Fixture.int_digits;
     strptime := fun _ _ =>
       Some {| dt_year := 1; dt_month := 1; dt_day := 1; dt_hour := 0;
               dt_minute := 0; dt_second := 0; dt_microsecond := 0 |};
     as_utc := fun _ => ConvOtherError |}.

End MoreFixtures.

(** ** [config_flow.py]: the user step

    The key names come from [homeassistant.const] and from [const.py],
    neither of which is at hand; the f-string of a value and the host's
    registry of configured unique ids are the host's. *)

Class FlowEnv := {
  CONF_USERNAME : string;
  CONF_PASSWORD : string;
  CONF_SERIAL_NUMBER : string;
  CONF_DEVICE_NAME : string;
  (** The text an f-string gives for a value. *)
  format_value : json -> string;
  (** Whether an entry with this unique id is configured already, in
      which case [_abort_if_unique_id_configured] aborts the flow. *)
  unique_id_configured : json -> bool
}.

Inductive flow_result :=
| CreateEntry (title : json) (entry_data : gmap string json)
| ShowForm (errors : gmap string string)
| AbortFlow (reason : string)
| FlowRaise (e : exn).

Section ConfigFlow.
Context `{FlowEnv}.

(** [user_input.get(k)]. *)
Definition input_get (user_input : gmap string json) (k : string) : json :=
  default JNull (user_input !! k).

(** One of the three tests of lines 34-39. *)
Definition require (user_input : gmap string json) (k : string)
    (errors : gmap string string) : gmap string string :=
  if truthy (input_get user_input k) then errors
  else <[k := "required"]> errors.

(** Lines 30-39. *)
Definition required_errors (user_input : gmap string json)
  : gmap string string :=
  require user_input CONF_SERIAL_NUMBER
    (require user_input CONF_PASSWORD
       (require user_input CONF_USERNAME ∅)).

(** [async_step_user], lines 28-73. *)
Definition async_step_user (user_input : option (gmap string json))
  : flow_result :=
  match user_input with
  | None => ShowForm ∅
  | Some ui =>
      let errors := required_errors ui in
      if decide (errors = ∅) then
        match ui !! CONF_SERIAL_NUMBER with
        | None => FlowRaise (Exn "KeyError" CONF_SERIAL_NUMBER)
        | Some serial =>
            if unique_id_configured serial then AbortFlow "already_configured"
            else CreateEntry
                   (default (JStr (format_value serial))
                      (ui !! CONF_DEVICE_NAME))
                   ui
        end
      else ShowForm errors
  end.

End ConfigFlow.

Module FlowFixtures.

Definition flow : FlowEnv :=
  {| CONF_USERNAME := "username"; CONF_PASSWORD := "password";
     CONF_SERIAL_NUMBER := "serial_number"; CONF_DEVICE_NAME := "device_name";
     format_value := fun j => match j with JStr s => s | _ => "?" end;
     unique_id_configured := fun _ => false |}.

Definition form : gmap string json :=
  <["serial_number" := JStr "SN401"]>
    (<["password" := JStr "secret"]> (<["username" := JStr "me"]> ∅)).

End FlowFixtures.

(** * Properties *)

(** ** The rollover-aware counter *)

Lemma compute_increment_baseline last current :
  (compute_increment last current).2 = current.
Proof. reflexivity. Qed.

(** With a positive baseline the counter follows the two rules. *)
Lemma compute_increment_positive last current :
  0 < last ->
  (compute_increment last current).1 =
    if current <? last then current else current - last.
Proof.
  intros Hlast. unfold compute_increment; simpl.
  destruct (0 <? last) eqn:E; [reflexivity|].
  apply Z.ltb_ge in E. lia.
Qed.

(** A baseline of [0] is read as "nothing recorded yet", also when [0]
    was observed. *)
Lemma compute_increment_zero current :
  (compute_increment 0 current).1 = 0.
Proof. reflexivity. Qed.

Lemma increments_from_length last vs :
  length (increments_from last vs) = length vs.
Proof.
  revert last. induction vs as [|v vs IH]; intros last; simpl; [reflexivity|].
  now rewrite IH.
Qed.

(** C1, on the code: the cumulative values 0, 150, 140, 300 give the
    increments 0, 0, 140, 160.  The second increment is 0 and not 150,
    because the baseline 0 stored by the first observation is taken for
    "no value recorded". *)
Theorem increments_scenario_C :
  increments [0; 150; 140; 300] = [0; 0; 140; 160].
Proof. reflexivity. Qed.

Lemma increments_from_nonneg last vs :
  0 <= last ->
  Forall (fun v => 0 <= v) vs ->
  Forall (fun i => 0 <= i) (increments_from last vs).
Proof.
  intros Hlast Hvs. revert last Hlast.
  induction Hvs as [|v vs Hv _ IH]; intros last Hlast; simpl.
  - constructor.
  - constructor.
    + destruct (0 <? last); [|lia].
      destruct (v <? last) eqn:E; [assumption|].
      apply Z.ltb_ge in E. lia.
    + apply IH. assumption.
Qed.

(** C2: fed with non-negative cumulative values, the counter yields only
    non-negative increments. *)
Theorem increments_nonneg (vs : list Z) :
  Forall (fun v => 0 <= v) vs ->
  Forall (fun i => 0 <= i) (increments vs).
Proof. intros Hvs. apply increments_from_nonneg; [lia | assumption]. Qed.

Lemma increments_nonneg_witness :
  Forall (fun i => 0 <= i) (increments [0; 150; 140; 300]).
Proof.
  apply (increments_nonneg [0; 150; 140; 300]).
  repeat constructor; lia.
Defined.

(** ** The consumption extractor *)

Lemma assoc_filter_same k ms :
  assoc k (List.filter (fun m => negb (String.eqb k m.1)) ms) = None.
Proof.
  induction ms as [|[k' v] ms IH]; simpl; [reflexivity|].
  destruct (String.eqb k k') eqn:E; simpl; [assumption|].
  now rewrite E.
Qed.

Lemma assoc_filter_other k k' ms :
  k <> k' ->
  assoc k' (List.filter (fun m => negb (String.eqb k m.1)) ms) = assoc k' ms.
Proof.
  intros Hne. induction ms as [|[k0 v] ms IH]; simpl; [reflexivity|].
  destruct (String.eqb k k0) eqn:E; simpl.
  - apply String.eqb_eq in E. subst k0.
    destruct (String.eqb k' k) eqn:E'; [|assumption].
    apply String.eqb_eq in E'. congruence.
  - now rewrite IH.
Qed.

Lemma dict_get_without_same k j d v :
  dict_get j k d = Ok v -> dict_get (without_member k j) k d = Ok d.
Proof.
  destruct j; simpl; try discriminate. intros _.
  now rewrite assoc_filter_same.
Qed.

Lemma dict_get_without_other k k' j d :
  k <> k' -> dict_get (without_member k j) k' d = dict_get j k' d.
Proof.
  intros Hne. destruct j; simpl; try reflexivity.
  now rewrite assoc_filter_other.
Qed.

Section ConsumptionFacts.
Context `{PyLib}.

Lemma try_formats_all_fail s fmts :
  (forall fmt, In fmt fmts -> strptime s fmt = None) ->
  try_formats s fmts = VNone.
Proof.
  induction fmts as [|fmt fmts IH]; intros Hall; simpl; [reflexivity|].
  rewrite (Hall fmt) by (left; reflexivity).
  apply IH. intros fmt' Hin. apply Hall. right. assumption.
Qed.

(** The refresh-date step never raises once the dataset is a dict. *)
Lemma refresh_step_total dataset_json res v :
  dict_get dataset_json "refreshDate" JNull = Ok v ->
  is_ok (refresh_step dataset_json res) = true.
Proof.
  intros Hget. unfold refresh_step. rewrite Hget. simpl.
  destruct (truthy v); reflexivity.
Qed.

Lemma refresh_step_unparsed dataset_json res s :
  dict_get dataset_json "refreshDate" JNull = Ok (JStr s) ->
  (forall fmt, In fmt formats -> strptime s fmt = None) ->
  refresh_step dataset_json res =
    Ok (if String.eqb s "" then res else <["refresh_date" := VNone]> res).
Proof.
  intros Hget Hall. unfold refresh_step. rewrite Hget.
  unfold mbind, result_bind. cbn [truthy].
  destruct (String.eqb s ""); cbn [negb]; [reflexivity|].
  unfold parse_refresh_date. now rewrite try_formats_all_fail.
Qed.

Lemma lines_step_ok_any dataset_json salt res res' :
  is_ok (lines_step dataset_json salt res) =
  is_ok (lines_step dataset_json salt res').
Proof.
  unfold lines_step, parse_first_line, mbind, result_bind.
  repeat case_match; reflexivity.
Qed.

Lemma lines_step_refresh_date dataset_json salt res r :
  lines_step dataset_json salt res = Ok r ->
  r !! "refresh_date" = res !! "refresh_date".
Proof.
  unfold lines_step, parse_first_line, mbind, result_bind.
  repeat case_match; intros Heq; try discriminate;
    injection Heq as <-; try reflexivity.
  now rewrite !lookup_insert_ne by discriminate.
Qed.

Lemma lines_step_without dataset_json salt res :
  lines_step (without_member "refreshDate" dataset_json) salt res =
  lines_step dataset_json salt res.
Proof.
  unfold lines_step. now rewrite dict_get_without_other by discriminate.
Qed.

(** C3: when [refreshDate] is a string that none of the four formats
    parses, the parse failure raises nothing: the refresh-date step
    returns normally, the fetch succeeds exactly when it succeeds on
    the same payload without [refreshDate], and the returned partial
    snapshot records [refresh_date] as [None] (for the empty string,
    which the code takes as missing, the key is not written at all). *)
Theorem unparsed_refresh_date_is_absent (w : world) (key : option string)
    (graph_div : tag) (dataset_json : json) (s : string) :
  fetch_graph w key = Ok (Some graph_div) ->
  json_loads (html_unescape
    (tag_get graph_div "data-chart-dataset-value" "{}")) = Ok dataset_json ->
  dict_get dataset_json "refreshDate" JNull = Ok (JStr s) ->
  (forall fmt, In fmt formats -> strptime s fmt = None) ->
  (forall res, is_ok (refresh_step dataset_json res) = true)
  /\ is_ok (_get_consumption_data w key) =
     is_ok (parse_dataset (without_member "refreshDate" dataset_json)
              (tag_get graph_div "data-chart-salt-value" "0"))
  /\ (forall r, _get_consumption_data w key = Ok r ->
        r !! "refresh_date" = if String.eqb s "" then None else Some VNone).
Proof.
  intros Hgraph Hloads Hget Hall.
  assert (Hfetch : _get_consumption_data w key =
            parse_dataset dataset_json
              (tag_get graph_div "data-chart-salt-value" "0")).
  { unfold _get_consumption_data. rewrite Hgraph. simpl.
    unfold parse_graph. now rewrite Hloads. }
  split; [|split].
  - intros res. now apply refresh_step_total with (v := JStr s).
  - rewrite Hfetch. unfold parse_dataset.
    destruct (int_of_str _) as [salt|e]; simpl; [|reflexivity].
    rewrite (refresh_step_unparsed _ _ s) by assumption.
    unfold refresh_step.
    rewrite (dict_get_without_same _ _ _ _ Hget).
    unfold mbind, result_bind. cbn [truthy].
    rewrite lines_step_without. apply lines_step_ok_any.
  - intros r. rewrite Hfetch. unfold parse_dataset.
    destruct (int_of_str _) as [salt|e]; simpl; [|discriminate].
    rewrite (refresh_step_unparsed _ _ s) by assumption. simpl.
    intros Hr. apply lines_step_refresh_date in Hr. rewrite Hr.
    destruct (String.eqb s "").
    + now rewrite lookup_singleton_ne by discriminate.
    + now rewrite lookup_insert_eq.
Qed.

End ConsumptionFacts.

Lemma unparsed_refresh_date_is_absent_witness :
  is_ok (_get_consumption_data (H := Fixture.lib)
           (Fixture.online "bad-date") (Some "K1")) = true
  /\ (forall r, _get_consumption_data (H := Fixture.lib)
                  (Fixture.online "bad-date") (Some "K1") = Ok r ->
        r !! "refresh_date" = Some VNone).
Proof.
  destruct (unparsed_refresh_date_is_absent (H := Fixture.lib)
              (Fixture.online "bad-date") (Some "K1")
              {| tag_attrs := [("id", "graph_device");
                               ("data-chart-dataset-value", "bad-date");
                               ("data-chart-salt-value", "120")] |}
              (JObj [ ("refreshDate", JStr "yesterday");
                      ("lines", JArr [ JArr [JStr "2025-11-27"; JInt 2;
                          JBool false; JInt 150; JBool false] ]) ])
              "yesterday")
    as (_ & Hok & Habsent).
  - reflexivity.
  - reflexivity.
  - reflexivity.
  - intros fmt _. reflexivity.
  - split; [rewrite Hok; reflexivity | exact Habsent].
Defined.

(** ** The main-data extractor *)

#[local] Arguments attr_lookup : simpl never.

Lemma is_none_spec v : is_none v = true <-> v = JNull.
Proof. destruct v; simpl; split; congruence. Qed.

Lemma item_write_renames item k v :
  item_write item = Some (k, v) <-> renames item k v.
Proof.
  unfold item_write, renames. split.
  - destruct item as [| | | | |?|ms]; try discriminate.
    destruct (default JNull (assoc "code" ms)) as [| | | |code| |] eqn:Ecode;
      try discriminate.
    destruct (is_none _) eqn:Enone; [discriminate|].
    destruct (attr_lookup code code_mapping) as [k'|] eqn:Emap; [|discriminate].
    intros [= <- <-]. exists code. simpl. rewrite Ecode.
    repeat split; try assumption.
    intros Hnull. apply is_none_spec in Hnull. congruence.
  - intros (code & Hcode & Hmap & Hval & Hnn).
    destruct item as [| | | | |?|ms]; try discriminate.
    simpl in Hcode, Hval. injection Hcode as ->. injection Hval as ->.
    destruct (is_none _) eqn:Enone.
    + apply is_none_spec in Enone. contradiction.
    + now rewrite Hmap.
Qed.

Lemma main_item_apply_write res item r :
  main_item res item = Ok r -> r = apply_write res item.
Proof.
  unfold main_item, apply_write, item_write, mbind, result_bind.
  destruct item as [| | | | |?|ms]; try discriminate. simpl.
  destruct (default JNull (assoc "code" ms)) as [|b|n|f|code|l|l] eqn:Ecode;
    simpl; try (intros [= <-]; reflexivity).
  - destruct b; simpl; [|intros [= <-]; reflexivity].
    destruct (is_none _); simpl; intros [= <-]; reflexivity.
  - destruct (negb (n =? 0)); simpl; [|intros [= <-]; reflexivity].
    destruct (is_none _); simpl; intros [= <-]; reflexivity.
  - destruct f; simpl; try (intros [= <-]; reflexivity);
      destruct (is_none _); simpl; intros [= <-]; reflexivity.
  - destruct (String.eqb code "") eqn:Eempty; simpl.
    + apply String.eqb_eq in Eempty. subst code. simpl.
      intros [= <-]. destruct (is_none _); reflexivity.
    + destruct (is_none _); simpl; [intros [= <-]; reflexivity|].
      destruct (attr_lookup code code_mapping); intros [= <-]; reflexivity.
  - destruct l; simpl; [intros [= <-]; reflexivity|].
    destruct (is_none _); simpl; [intros [= <-]; reflexivity|discriminate].
  - destruct l; simpl; [intros [= <-]; reflexivity|].
    destruct (is_none _); simpl; [intros [= <-]; reflexivity|discriminate].
Qed.

Lemma for_each_main_item items res r :
  for_each main_item items res = Ok r ->
  r = fold_left apply_write items res.
Proof.
  revert res. induction items as [|item items IH]; intros res; simpl.
  - now intros [= <-].
  - unfold mbind, result_bind.
    destruct (main_item res item) as [res'|e] eqn:Eitem; [|discriminate].
    apply main_item_apply_write in Eitem. subst res'. apply IH.
Qed.

Lemma for_each_main_category cats res r :
  for_each main_category cats res = Ok r ->
  r = fold_left apply_write (category_items cats) res.
Proof.
  revert res. induction cats as [|[name cdata] cats IH]; intros res; simpl.
  - now intros [= <-].
  - unfold mbind, result_bind.
    destruct (main_category res (name, cdata)) as [res'|e] eqn:Ecat;
      [|discriminate].
    intros Hrest. apply IH in Hrest. subst r.
    rewrite fold_left_app. f_equal.
    unfold main_category in Ecat. simpl in Ecat.
    destruct cdata; try (injection Ecat as <-; reflexivity).
    now apply for_each_main_item.
Qed.

Lemma fold_apply_write_lookup items (res : snapshot) k :
  fold_left apply_write items res !! k =
    match last_write k items with
    | Some v => Some (VJson v)
    | None => res !! k
    end.
Proof.
  revert res. induction items as [|item items IH]; intros res; simpl;
    [reflexivity|].
  rewrite IH. destruct (last_write k items); [reflexivity|].
  unfold apply_write. destruct (item_write item) as [[k' v]|]; [|reflexivity].
  destruct (String.eqb k' k) eqn:E.
  - apply String.eqb_eq in E. subst k'. apply lookup_insert_eq.
  - apply String.eqb_neq in E. now apply lookup_insert_ne.
Qed.

Lemma last_write_Some k items v :
  last_write k items = Some v ->
  exists item, In item items /\ renames item k v.
Proof.
  induction items as [|item items IH]; simpl; [discriminate|].
  destruct (last_write k items) as [v'|].
  - intros [= <-]. destruct IH as (it & Hin & Hr); [reflexivity|].
    exists it. split; [right|]; assumption.
  - destruct (item_write item) as [[k' v']|] eqn:Ew; [|discriminate].
    destruct (String.eqb k' k) eqn:E; [|discriminate].
    apply String.eqb_eq in E. subst k'. intros [= <-].
    exists item. split; [left; reflexivity|]. now apply item_write_renames.
Qed.

Lemma last_write_None k items :
  last_write k items = None ->
  forall item v, In item items -> ~ renames item k v.
Proof.
  induction items as [|item items IH]; simpl; [intros _ ? ? []|].
  destruct (last_write k items) as [v'|]; [discriminate|].
  intros Hw it v [<-|Hin] Hr.
  - apply item_write_renames in Hr. rewrite Hr in Hw.
    now rewrite String.eqb_refl in Hw.
  - now apply (IH eq_refl it v).
Qed.

Lemma get_main_data_inv w key r :
  _get_main_data w key = Ok r ->
  exists rsp data d online standby salt cats,
    summary_get w (key_text key) = Ok rsp
    /\ status_code rsp = 200
    /\ response_json rsp = Ok data
    /\ dict_get data "online" (JBool false) = Ok online
    /\ dict_get data "data" (JObj []) = Ok d
    /\ dict_get d "standBy" (JBool false) = Ok standby
    /\ dict_get d "salt" JNull = Ok salt
    /\ dict_get data "dataCategories" (JObj []) = Ok (JObj cats)
    /\ r = fold_left apply_write (category_items cats)
             (main_base online standby salt).
Proof.
  unfold _get_main_data, mbind, result_bind.
  destruct (summary_get w (key_text key)) as [rsp|?] eqn:Ersp; [|discriminate].
  destruct (status_code rsp =? 200) eqn:Estatus; simpl; [|discriminate].
  apply Z.eqb_eq in Estatus.
  destruct (response_json rsp) as [data|?] eqn:Edata; [|discriminate].
  destruct (dict_get data "online" (JBool false)) as [online|?] eqn:Eonline;
    [|discriminate].
  destruct (dict_get data "data" (JObj [])) as [d|?] eqn:Ed; [|discriminate].
  destruct (dict_get d "standBy" (JBool false)) as [standby|?] eqn:Estandby;
    [|discriminate].
  destruct (dict_get d "salt" JNull) as [salt|?] eqn:Esalt; [|discriminate].
  destruct (dict_get data "dataCategories" (JObj [])) as [categories|?] eqn:Ecats;
    [|discriminate].
  destruct (dict_items categories) as [cats|?] eqn:Eitems; [|discriminate].
  intros Hloop. apply for_each_main_category in Hloop.
  exists rsp, data, d, online, standby, salt, cats.
  destruct categories; try discriminate. injection Eitems as ->.
  repeat split; assumption.
Qed.

Lemma main_base_lookup online standby salt k :
  is_Some (main_base online standby salt !! k) <-> In k base_keys.
Proof.
  unfold main_base, base_keys. rewrite !lookup_insert_is_Some.
  rewrite lookup_empty, is_Some_alt. simpl. intuition congruence.
Qed.

(** C7: on every summary payload that [_get_main_data] accepts, the
    result holds the three top-level fields and, beyond them, a
    canonical key exactly for the category items whose code is in the
    catalog and whose value is not null; where such an item exists the
    key holds the unchanged value of one of them, and every other entry
    of the result is one of the three top-level fields: items with codes
    outside the catalog contribute nothing. *)
Theorem main_data_renames_catalog_items (w : world) (key : option string)
    (rsp : response) (data : json) (cats : list (string * json))
    (r : snapshot) :
  summary_get w (key_text key) = Ok rsp ->
  response_json rsp = Ok data ->
  dict_get data "dataCategories" (JObj []) = Ok (JObj cats) ->
  _get_main_data w key = Ok r ->
  (forall k, is_Some (r !! k) <->
     In k base_keys \/
     exists item v, In item (category_items cats) /\ renames item k v)
  /\ (forall k,
        (exists item v, In item (category_items cats) /\ renames item k v) ->
        exists item v, In item (category_items cats) /\ renames item k v
                       /\ r !! k = Some (VJson v))
  /\ (forall k x, r !! k = Some x ->
        In k base_keys \/
        exists item v, In item (category_items cats) /\ renames item k v
                       /\ x = VJson v).
Proof.
  intros Hrsp Hdata Hcats Hmain.
  destruct (get_main_data_inv _ _ _ Hmain)
    as (rsp' & data' & d & online & standby & salt & cats' &
        Hrsp' & _ & Hdata' & _ & _ & _ & _ & Hcats' & ->).
  rewrite Hrsp in Hrsp'. injection Hrsp' as <-.
  rewrite Hdata in Hdata'. injection Hdata' as <-.
  rewrite Hcats in Hcats'. injection Hcats' as <-.
  set (items := category_items cats).
  set (base := main_base online standby salt).
  assert (Hlast : forall k,
    (exists item v, In item items /\ renames item k v) ->
    exists v, last_write k items = Some v).
  { intros k (item & v & Hin & Hr).
    destruct (last_write k items) as [v'|] eqn:E; [eauto|].
    exfalso. exact (last_write_None _ _ E item v Hin Hr). }
  split; [|split].
  - intros k. rewrite fold_apply_write_lookup. split.
    + destruct (last_write k items) as [v|] eqn:E.
      * intros _. right. destruct (last_write_Some _ _ _ E) as (item & Hin & Hr).
        eauto.
      * intros Hk. left. now apply (main_base_lookup online standby salt).
    + intros [Hk|Hex].
      * destruct (last_write k items); [eauto|].
        now apply main_base_lookup.
      * destruct (Hlast k Hex) as [v ->]. eauto.
  - intros k Hex. destruct (Hlast k Hex) as [v Hv].
    destruct (last_write_Some _ _ _ Hv) as (item & Hin & Hr).
    exists item, v. repeat split; try assumption.
    rewrite fold_apply_write_lookup. now rewrite Hv.
  - intros k x. rewrite fold_apply_write_lookup.
    destruct (last_write k items) as [v|] eqn:E.
    + intros [= <-]. right.
      destruct (last_write_Some _ _ _ E) as (item & Hin & Hr). eauto.
    + intros Hk. left. apply (main_base_lookup online standby salt). eauto.
Qed.

Lemma main_data_renames_catalog_items_witness :
  let r : snapshot :=
    <["resin_vol" := VInt 18]> (main_base (JBool true) (JBool false) JNull) in
  r !! "resin_vol" = Some (VInt 18)
  /\ (forall k x, r !! k = Some x ->
        In k base_keys \/
        exists item v,
          In item (category_items
                     [ ("config", JArr
                          [ JObj [("code", JStr "resinVol"); ("value", JInt 18)];
                            JObj [("code", JStr "firmware"); ("value", JStr "1.2")];
                            JObj [("code", JStr "pressure"); ("value", JNull)] ]);
                       ("misc", JStr "n/a") ])
          /\ renames item k v /\ x = VJson v).
Proof.
  intros r.
  destruct (main_data_renames_catalog_items (Fixture.online "day") (Some "K1")
              {| status_code := 200; response_json := Ok Fixture.summary |}
              Fixture.summary
              [ ("config", JArr
                   [ JObj [("code", JStr "resinVol"); ("value", JInt 18)];
                     JObj [("code", JStr "firmware"); ("value", JStr "1.2")];
                     JObj [("code", JStr "pressure"); ("value", JNull)] ]);
                ("misc", JStr "n/a") ]
              r)
    as (_ & _ & Hother).
  - reflexivity.
  - reflexivity.
  - reflexivity.
  - vm_compute. reflexivity.
  - split; [vm_compute; reflexivity | exact Hother].
Defined.

Lemma code_mapping_keys code k :
  attr_lookup code code_mapping = Some k ->
  In k ["resin_vol"; "in_hardness"; "out_hardness"; "pressure"; "salt";
        "vol_ok"; "wifi_signal"].
Proof.
  unfold code_mapping, attr_lookup.
  repeat (destruct (String.eqb code _); [intros [= <-]; simpl; tauto|]).
  discriminate.
Qed.

(** [_get_main_data] writes neither of the two water fields. *)
Lemma main_data_no_water w key r k :
  _get_main_data w key = Ok r ->
  k = "water_consumption" \/ k = "water_increment" ->
  r !! k = None.
Proof.
  intros Hmain Hk.
  destruct (get_main_data_inv _ _ _ Hmain)
    as (rsp & data & d & online & standby & salt & cats & _ & _ & _ & _ & _ &
        _ & _ & _ & ->).
  rewrite fold_apply_write_lookup.
  destruct (last_write k (category_items cats)) as [v|] eqn:E.
  - destruct (last_write_Some _ _ _ E) as (item & _ & code & _ & Hmap & _).
    apply code_mapping_keys in Hmap. simpl in Hmap.
    destruct Hk as [-> | ->]; intuition discriminate.
  - destruct (main_base online standby salt !! k) eqn:Ebase; [|reflexivity].
    assert (Hin : In k base_keys) by (apply (main_base_lookup online standby salt); eauto).
    simpl in Hin. destruct Hk as [-> | ->]; intuition discriminate.
Qed.

(** The three top-level fields are in every result of [_get_main_data]. *)
Lemma main_data_base_keys w key r k :
  _get_main_data w key = Ok r -> In k base_keys -> is_Some (r !! k).
Proof.
  intros Hmain Hk.
  destruct (get_main_data_inv _ _ _ Hmain)
    as (rsp & data & d & online & standby & salt & cats & _ & _ & _ & _ & _ &
        _ & _ & _ & ->).
  rewrite fold_apply_write_lookup.
  destruct (last_write k (category_items cats)); [eauto|].
  now apply main_base_lookup.
Qed.

(** A snapshot with the three top-level fields has at least three fields. *)
Lemma three_fields (d : snapshot) :
  (forall k, In k base_keys -> is_Some (d !! k)) -> (3 <= size d)%nat.
Proof.
  intros Hkeys.
  assert (Hsub : ({["online"; "standby"; "salt"]} : gset string) ⊆ dom d).
  { intros k Hk. apply elem_of_dom. apply Hkeys. simpl.
    rewrite !elem_of_union, !elem_of_singleton in Hk.
    intuition congruence. }
  apply subseteq_size in Hsub. rewrite size_dom in Hsub.
  etransitivity; [|exact Hsub].
  vm_compute. lia.
Qed.

(** ** Invariant: [water_consumption] holds an [int] *)

Lemma water_int_empty : water_int ∅.
Proof. intros v. rewrite lookup_empty. discriminate. Qed.

Lemma water_int_update d other :
  water_int d -> water_int other -> water_int (dict_update d other).
Proof.
  intros Hd Ho v. unfold dict_update. rewrite lookup_union.
  destruct (other !! "water_consumption") as [x|] eqn:Eo;
    destruct (d !! "water_consumption") as [y|] eqn:Ed; simpl;
    intros [= <-]; eauto.
Qed.

Lemma dict_update_lookup (d other : snapshot) k :
  dict_update d other !! k =
    match other !! k with Some v => Some v | None => d !! k end.
Proof.
  unfold dict_update. rewrite lookup_union.
  destruct (other !! k), (d !! k); reflexivity.
Qed.

Section ConsumptionInvariant.
Context `{PyLib}.

Lemma refresh_step_water dataset_json res r k :
  refresh_step dataset_json res = Ok r ->
  k <> "refresh_date" -> r !! k = res !! k.
Proof.
  unfold refresh_step, mbind, result_bind.
  destruct (dict_get _ _ _) as [v|]; [|discriminate].
  destruct (truthy v); intros [= <-] Hk; [|reflexivity].
  now rewrite lookup_insert_ne.
Qed.

Lemma lines_step_water_int dataset_json salt res r :
  lines_step dataset_json salt res = Ok r ->
  water_int res -> water_int r.
Proof.
  unfold lines_step, parse_first_line, mbind, result_bind.
  repeat case_match; intros Heq; try discriminate;
    injection Heq as <-; try (intros; assumption).
  intros _ v.
  rewrite !lookup_insert_ne by discriminate.
  rewrite lookup_insert_eq. intros [= <-]. eauto.
Qed.

Lemma lines_step_no_increment dataset_json salt res r :
  lines_step dataset_json salt res = Ok r ->
  r !! "water_increment" = res !! "water_increment".
Proof.
  unfold lines_step, parse_first_line, mbind, result_bind.
  repeat case_match; intros Heq; try discriminate;
    injection Heq as <-; try reflexivity.
  now rewrite !lookup_insert_ne by discriminate.
Qed.

Lemma consumption_data_water w key r :
  _get_consumption_data w key = Ok r ->
  water_int r /\ r !! "water_increment" = None.
Proof.
  unfold _get_consumption_data, mbind, result_bind.
  destruct (fetch_graph w key) as [[graph_div|]|]; try discriminate.
  - unfold parse_graph, parse_dataset, mbind, result_bind.
    destruct (json_loads _) as [dataset_json|]; [|discriminate].
    destruct (int_of_str _) as [salt|]; [|discriminate].
    destruct (refresh_step _ _) as [res|] eqn:Eres; [|discriminate].
    intros Hlines. split.
    + apply (lines_step_water_int _ _ _ _ Hlines).
      intros v. rewrite (refresh_step_water _ _ _ _ Eres) by discriminate.
      rewrite lookup_singleton_ne by discriminate. discriminate.
    + rewrite (lines_step_no_increment _ _ _ _ Hlines).
      rewrite (refresh_step_water _ _ _ _ Eres) by discriminate.
      now rewrite lookup_singleton_ne by discriminate.
  - intros [= <-]. split; [apply water_int_empty | apply lookup_empty].
Qed.

End ConsumptionInvariant.

(** ** The cycle, stage by stage *)

Section CycleFacts.
Context `{PyLib} `{Const}.

Lemma authenticate_state entry w c c1 r :
  _authenticate entry w c = (c1, r) ->
  data c1 = data c
  /\ last_update_success c1 = last_update_success c
  /\ _last_main_update c1 = _last_main_update c
  /\ _last_water_consumption c1 = _last_water_consumption c
  /\ match r with
     | Ok _ => token_held c1 = true
     | Raise _ => c1 = c
     end.
Proof.
  unfold _authenticate.
  destruct (login_post w) as [status|e]; [|intros [= <- <-]; auto].
  destruct (negb (status =? 200)); [intros [= <- <-]; auto|].
  destruct (dashboard_get w) as [anchors|e]; [|intros [= <- <-]; auto].
  destruct (find_receipt_line_key _) as [k|] eqn:Ekey;
    [|intros [= <- <-]; auto].
  intros [= <- <-]. repeat split. unfold token_held. simpl.
  clear -Ekey. induction (device_links anchors) as [|link links IH];
    simpl in Ekey; [discriminate|].
  destruct (anchor_serial link) as [[|]|]; auto.
  destruct (search_key (anchor_href link)) as [k'|] eqn:Esearch; auto.
  injection Ekey as ->. clear -Esearch.
  induction (anchor_href link) as [|ch href IH]; [discriminate|].
  cbn [search_key] in Esearch.
  destruct (if String.prefix "receiptLineKey=" (String ch href) then _ else _)
    eqn:Ev; [auto|].
  injection Esearch as <-. reflexivity.
Qed.

Lemma ensure_auth_state entry w c c1 r jobs :
  ensure_auth entry w c = (c1, r, jobs) ->
  data c1 = data c
  /\ last_update_success c1 = last_update_success c
  /\ _last_main_update c1 = _last_main_update c
  /\ _last_water_consumption c1 = _last_water_consumption c
  /\ match r with
     | Ok _ => token_held c1 = true
     | Raise _ => c1 = c /\ token_held c = false
     end.
Proof.
  unfold ensure_auth. destruct (token_held c) eqn:Eheld.
  - intros [= <- <- <-]. auto.
  - destruct (_authenticate entry w c) as [c' r'] eqn:Eauth.
    intros [= <- <- <-].
    destruct (authenticate_state _ _ _ _ _ Eauth) as (? & ? & ? & ? & Hr).
    repeat split; try assumption. destruct r'; auto.
Qed.

Lemma ensure_auth_held entry w c :
  token_held c = true -> ensure_auth entry w c = (c, Ok (), []).
Proof. intros Hheld. unfold ensure_auth. now rewrite Hheld. Qed.

Lemma main_stage_state entry w c d c2 d1 jobs :
  main_stage entry w c d = (c2, d1, jobs) ->
  data c2 = data c
  /\ last_update_success c2 = last_update_success c
  /\ receipt_line_key c2 = receipt_line_key c
  /\ _last_water_consumption c2 = _last_water_consumption c.
Proof.
  unfold main_stage. destruct (main_due entry w c).
  - destruct (_get_main_data w (receipt_line_key c));
      intros [= <- <- <-]; auto.
  - intros [= <- <- <-]; auto.
Qed.

Lemma stages_update entry w c d c2 d1 jobs :
  main_stage entry w c d = (c2, d1, jobs) ->
  consumption_stage w c2 d1 = dict_update d (fetched_updates entry w c).
Proof.
  unfold fetched_updates, main_stage, consumption_stage, dict_update.
  destruct (main_due entry w c).
  - destruct (_get_main_data w (receipt_line_key c)) as [m|];
      intros [= <- <- <-]; simpl;
      destruct (_get_consumption_data w (receipt_line_key c)) as [cd|];
      apply map_eq; intros k; rewrite ?lookup_union, ?lookup_empty;
      destruct (d !! k); try destruct (m !! k); try destruct (cd !! k);
      reflexivity.
  - intros [= <- <- <-]; simpl;
      destruct (_get_consumption_data w (receipt_line_key c)) as [cd|];
      apply map_eq; intros k; rewrite ?lookup_union, ?lookup_empty;
      destruct (d !! k); try destruct (cd !! k); reflexivity.
Qed.

Lemma fetched_updates_water_int entry w c :
  water_int (fetched_updates entry w c)
  /\ fetched_updates entry w c !! "water_increment" = None.
Proof.
  unfold fetched_updates, main_stage, consumption_stage.
  assert (Hupd : forall (d cd : snapshot),
    water_int d -> d !! "water_increment" = None ->
    water_int cd -> cd !! "water_increment" = None ->
    water_int (dict_update d cd)
    /\ dict_update d cd !! "water_increment" = None).
  { intros d cd Hd Hdi Hcd Hcdi. split; [now apply water_int_update|].
    rewrite dict_update_lookup. now rewrite Hcdi. }
  assert (Hmain : forall m, _get_main_data w (receipt_line_key c) = Ok m ->
    water_int (dict_update ∅ m)
    /\ dict_update ∅ m !! "water_increment" = None).
  { intros m Hm. apply Hupd; try apply water_int_empty; try apply lookup_empty.
    - intros v. rewrite (main_data_no_water _ _ _ _ Hm) by auto. discriminate.
    - apply (main_data_no_water _ _ _ _ Hm). auto. }
  destruct (main_due entry w c);
    [destruct (_get_main_data w (receipt_line_key c)) as [m|] eqn:Em|];
    simpl;
    destruct (_get_consumption_data w (receipt_line_key c)) as [cd|] eqn:Ecd;
    try (destruct (consumption_data_water _ _ _ Ecd));
    try (destruct (Hmain m eq_refl));
    try apply Hupd; try assumption; try apply water_int_empty;
    try apply lookup_empty.
  - intros v. rewrite (main_data_no_water _ _ _ _ Em) by auto. discriminate.
  - apply (main_data_no_water _ _ _ _ Em). auto.
  - split; [apply water_int_empty | apply lookup_empty].
  - split; [apply water_int_empty | apply lookup_empty].
Qed.

Lemma water_stage_state c d c' r :
  water_stage c d = (c', r) ->
  data c' = data c
  /\ last_update_success c' = last_update_success c
  /\ receipt_line_key c' = receipt_line_key c
  /\ _last_main_update c' = _last_main_update c.
Proof.
  unfold water_stage. repeat case_match; intros [= <- <-]; auto.
Qed.

Lemma water_stage_ok c d c' d' :
  water_stage c d = (c', Ok d') ->
  (forall k, k <> "water_increment" -> d' !! k = d !! k)
  /\ (forall k, is_Some (d !! k) -> is_Some (d' !! k))
  /\ (size d <= size d')%nat.
Proof.
  unfold water_stage. repeat case_match; intros [= <- <-];
    try (repeat split; auto; fail).
  split; [|split].
  - intros k Hk. now rewrite lookup_insert_ne.
  - intros k Hk. rewrite lookup_insert_is_Some. 
    destruct (decide ("water_increment" = k)); auto.
  - destruct (d !! "water_increment") eqn:E.
    + erewrite map_size_insert_Some; eauto.
    + rewrite map_size_insert_None; auto.
Qed.

Lemma water_stage_total c d :
  water_int d -> exists c' d', water_stage c d = (c', Ok d').
Proof.
  intros Hint. unfold water_stage.
  destruct (d !! "water_consumption") as [v|] eqn:E; [|eauto].
  destruct (Hint v E) as [n ->]. simpl. eauto.
Qed.

Lemma try_body_after_auth entry w c c1 jobs1 :
  ensure_auth entry w c = (c1, Ok (), jobs1) ->
  try_body entry w c =
    let '(c3, merged, jobs2) := merge entry w c1 in
    {| run_state := c3;
       run_result := d ← merged; sufficiency d;
       run_jobs := (jobs1 ++ jobs2)%list |}.
Proof. intros Hauth. unfold try_body. now rewrite Hauth. Qed.

Lemma merge_state entry w c c3 r jobs :
  merge entry w c = (c3, r, jobs) ->
  data c3 = data c
  /\ last_update_success c3 = last_update_success c
  /\ receipt_line_key c3 = receipt_line_key c.
Proof.
  unfold merge.
  destruct (main_stage entry w c (previous_data c)) as [[c2 d1] jobs2] eqn:Emain.
  destruct (water_stage c2 (consumption_stage w c2 d1)) as [c' r'] eqn:Ewater.
  intros [= <- <- <-].
  destruct (main_stage_state _ _ _ _ _ _ _ Emain) as (? & ? & ? & _).
  destruct (water_stage_state _ _ _ _ Ewater) as (? & ? & ? & _).
  repeat split; congruence.
Qed.

Lemma on_error_state c err :
  data (on_error c err).1 = data c
  /\ last_update_success (on_error c err).1 = last_update_success c
  /\ _last_main_update (on_error c err).1 = _last_main_update c
  /\ _last_water_consumption (on_error c err).1 = _last_water_consumption c.
Proof. unfold on_error. simpl. destruct (auth_marker err); auto. Qed.

(** A cycle whose [try] body returns [d] returns [d]. *)
Lemma update_returns entry w c d :
  run_result (try_body entry w c) = Ok d ->
  _async_update_data entry w c = try_body entry w c.
Proof. intros Hok. unfold _async_update_data. now rewrite Hok. Qed.

(** A cycle whose [try] body raises goes through the handler. *)
Lemma update_raises entry w c err :
  run_result (try_body entry w c) = Raise err ->
  _async_update_data entry w c =
    {| run_state := (on_error (run_state (try_body entry w c)) err).1;
       run_result := Raise (on_error (run_state (try_body entry w c)) err).2;
       run_jobs := run_jobs (try_body entry w c) |}.
Proof. intros Herr. unfold _async_update_data. now rewrite Herr. Qed.

(** The outcome of a cycle past authentication, from the merged dict. *)
Lemma merged_outcome entry w c c1 jobs1 c3 d jobs2 :
  ensure_auth entry w c = (c1, Ok (), jobs1) ->
  merge entry w c1 = (c3, Ok d, jobs2) ->
  ((size d < 3)%nat ->
     run_result (_async_update_data entry w c) = Raise insufficient_data
     /\ data (async_refresh entry w c) = data c
     /\ available (async_refresh entry w c) = false)
  /\ ((3 <= size d)%nat ->
     run_result (_async_update_data entry w c) = Ok d
     /\ data (async_refresh entry w c) = Some d
     /\ available (async_refresh entry w c) = true).
Proof.
  intros Hauth Hmerge.
  pose proof (try_body_after_auth _ _ _ _ _ Hauth) as Hbody.
  destruct (ensure_auth_state _ _ _ _ _ _ Hauth) as (Hdata1 & _).
  rewrite Hmerge in Hbody.
  destruct (merge_state _ _ _ _ _ _ Hmerge) as (Hdata3 & _).
  split; intros Hsize.
  - assert (Herr : run_result (try_body entry w c) =
              Raise (UpdateFailed "Insufficient data received")).
    { rewrite Hbody. simpl. unfold sufficiency.
      destruct (Nat.ltb_spec (size d) 3); [reflexivity|lia]. }
    unfold async_refresh. rewrite (update_raises _ _ _ _ Herr).
    rewrite Hbody. simpl. repeat split; congruence.
  - assert (Hok : run_result (try_body entry w c) = Ok d).
    { rewrite Hbody. simpl. unfold sufficiency.
      destruct (Nat.ltb_spec (size d) 3); [lia|reflexivity]. }
    unfold async_refresh. rewrite (update_returns _ _ _ _ Hok).
    rewrite Hok. repeat split; reflexivity.
Qed.

(** A cycle that fails leaves the published snapshot as it was. *)
Lemma failed_cycle_keeps_data entry w c err :
  run_result (_async_update_data entry w c) = Raise err ->
  data (async_refresh entry w c) = data c
  /\ available (async_refresh entry w c) = false.
Proof.
  intros Herr. unfold async_refresh. rewrite Herr.
  split; [|reflexivity]. simpl.
  unfold _async_update_data in *.
  destruct (run_result (try_body entry w c)) as [d|e] eqn:Ebody;
    [rewrite Ebody in Herr; discriminate|].
  assert (Hd : data (run_state (try_body entry w c)) = data c).
  { unfold try_body.
    destruct (ensure_auth entry w c) as [[c1 auth] jobs1] eqn:Eauth.
    destruct (ensure_auth_state _ _ _ _ _ _ Eauth) as (Hdata1 & _).
    destruct auth; [|assumption].
    destruct (merge entry w c1) as [[c3 merged] jobs2] eqn:Emerge.
    destruct (merge_state _ _ _ _ _ _ Emerge) as (Hdata3 & _).
    simpl. congruence. }
  unfold on_error. simpl. destruct (auth_marker e); simpl; exact Hd.
Qed.

(** C4: in a cycle that is past authentication, the dict [d] merged
    from the previous snapshot and this cycle's updates decides the
    outcome: with fewer than 3 fields the cycle fails with the
    insufficient-data error and the published snapshot stays as it
    was; with 3 or more the cycle returns [d], which is published.
    When the previous snapshot is empty and both fetches fail, the
    cycle fails with the insufficient-data error. *)
Theorem sufficiency_floor (entry : config_entry) (w : world)
    (c c1 : coordinator) (jobs1 : list job) :
  ensure_auth entry w c = (c1, Ok (), jobs1) ->
  (forall c3 d jobs2,
     merge entry w c1 = (c3, Ok d, jobs2) ->
     ((size d < 3)%nat ->
        run_result (_async_update_data entry w c) = Raise insufficient_data
        /\ data (async_refresh entry w c) = data c
        /\ available (async_refresh entry w c) = false)
     /\ ((3 <= size d)%nat ->
        run_result (_async_update_data entry w c) = Ok d
        /\ data (async_refresh entry w c) = Some d
        /\ available (async_refresh entry w c) = true))
  /\ (previous_data c = ∅ ->
      (exists e, _get_main_data w (receipt_line_key c1) = Raise e) ->
      (exists e, _get_consumption_data w (receipt_line_key c1) = Raise e) ->
      run_result (_async_update_data entry w c) = Raise insufficient_data
      /\ available (async_refresh entry w c) = false).
Proof.
  intros Hauth.
  destruct (ensure_auth_state _ _ _ _ _ _ Hauth) as (Hdata1 & _).
  pose proof (fun c3 d jobs2 => merged_outcome _ _ _ _ _ c3 d jobs2 Hauth)
    as Hfloor.
  split; [exact Hfloor|].
  intros Hprev [e1 Hmain] [e2 Hcons].
  assert (Hmerge : exists jobs2, merge entry w c1 = (c1, Ok ∅, jobs2)).
  { unfold merge, main_stage, consumption_stage, previous_data.
    rewrite Hdata1. fold (previous_data c). rewrite Hprev, Hmain.
    destruct (main_due entry w c1); rewrite Hcons; unfold water_stage;
      rewrite lookup_empty; eauto. }
  destruct Hmerge as [jobs2 Hmerge].
  destruct (Hfloor _ _ _ Hmerge) as [Hlow _].
  destruct Hlow as (? & ? & ?); [rewrite map_size_empty; lia|]. auto.
Qed.

Lemma dict_update_size (d other : snapshot) :
  (size d <= size (dict_update d other))%nat.
Proof.
  unfold dict_update. rewrite <- !size_dom.
  apply subseteq_size. rewrite dom_union. apply union_subseteq_r.
Qed.

(** The merged dict, field by field: the fetched value if there is
    one, else the previous one ([water_increment] apart, which lines
    97-101 recompute). *)
Lemma merged_lookup entry w c c3 d jobs :
  merge entry w c = (c3, Ok d, jobs) ->
  (forall k, k <> "water_increment" ->
     d !! k = match fetched_updates entry w c !! k with
              | Some v => Some v
              | None => previous_data c !! k
              end)
  /\ (forall k, is_Some (previous_data c !! k) -> is_Some (d !! k))
  /\ (size (previous_data c) <= size d)%nat.
Proof.
  unfold merge.
  destruct (main_stage entry w c (previous_data c)) as [[c2 d1] jobs2] eqn:Emain.
  destruct (water_stage c2 (consumption_stage w c2 d1)) as [c' r'] eqn:Ewater.
  intros [= <- -> <-].
  destruct (water_stage_ok _ _ _ _ Ewater) as (Hsame & Hkeys & Hsize).
  rewrite (stages_update _ _ _ _ _ _ _ Emain) in Hsame, Hkeys, Hsize.
  split; [|split].
  - intros k Hk. rewrite (Hsame k Hk). apply dict_update_lookup.
  - intros k Hk. apply Hkeys. rewrite dict_update_lookup.
    destruct (fetched_updates entry w c !! k); eauto.
  - etransitivity; [apply dict_update_size|exact Hsize].
Qed.

(** In reachable states the merge never raises. *)
Lemma merge_total entry w c :
  water_int (previous_data c) ->
  exists c3 d jobs, merge entry w c = (c3, Ok d, jobs).
Proof.
  intros Hint. unfold merge.
  destruct (main_stage entry w c (previous_data c)) as [[c2 d1] jobs2] eqn:Emain.
  rewrite (stages_update _ _ _ _ _ _ _ Emain).
  destruct (water_stage_total c2
              (dict_update (previous_data c) (fetched_updates entry w c)))
    as (c' & d' & ->); [|eauto].
  apply water_int_update; [assumption|apply fetched_updates_water_int].
Qed.

Lemma merged_water_int entry w c c3 d jobs :
  water_int (previous_data c) ->
  merge entry w c = (c3, Ok d, jobs) -> water_int d.
Proof.
  intros Hint Hmerge.
  destruct (merged_lookup _ _ _ _ _ _ Hmerge) as (Hsame & _).
  intros v. rewrite Hsame by discriminate. intros Hv.
  apply (water_int_update (previous_data c) (fetched_updates entry w c));
    [assumption|apply fetched_updates_water_int|].
  now rewrite dict_update_lookup.
Qed.

Lemma merge_raises entry w c c1 jobs1 c3 e jobs2 :
  ensure_auth entry w c = (c1, Ok (), jobs1) ->
  merge entry w c1 = (c3, Raise e, jobs2) ->
  exists err, run_result (_async_update_data entry w c) = Raise err.
Proof.
  intros Hauth Hmerge.
  pose proof (try_body_after_auth _ _ _ _ _ Hauth) as Hbody.
  rewrite Hmerge in Hbody.
  assert (Herr : run_result (try_body entry w c) = Raise e)
    by now rewrite Hbody.
  rewrite (update_raises _ _ _ _ Herr). simpl. eauto.
Qed.

(** The invariant [water_int] holds of every published snapshot. *)
Lemma cycle_keeps_water_int entry w c :
  water_int (previous_data c) ->
  water_int (previous_data (async_refresh entry w c)).
Proof.
  intros Hint.
  destruct (run_result (_async_update_data entry w c)) as [d|err] eqn:Eres.
  - assert (Hpub : data (async_refresh entry w c) = Some d)
      by (unfold async_refresh; now rewrite Eres).
    unfold previous_data at 1. rewrite Hpub. simpl.
    unfold _async_update_data in Eres.
    destruct (run_result (try_body entry w c)) as [d'|e] eqn:Ebody;
      [|destruct (on_error _ e); discriminate].
    rewrite Ebody in Eres. injection Eres as ->.
    unfold try_body in Ebody.
    destruct (ensure_auth entry w c) as [[c1 auth] jobs1] eqn:Eauth.
    destruct auth; [|discriminate].
    destruct (ensure_auth_state _ _ _ _ _ _ Eauth) as (Hdata1 & _).
    destruct (merge entry w c1) as [[c3 [m|e]] jobs2] eqn:Emerge;
      [|discriminate].
    simpl in Ebody. unfold sufficiency in Ebody.
    destruct (size m <? 3)%nat; [discriminate|]. injection Ebody as ->.
    apply (merged_water_int _ _ _ _ _ _ ltac:(unfold previous_data; rewrite Hdata1; exact Hint) Emerge).
  - destruct (failed_cycle_keeps_data _ _ _ _ Eres) as (Hsame & _).
    unfold previous_data. now rewrite Hsame.
Qed.

(** C5, as the code has it: in a cycle past authentication, every
    field of the previous snapshot other than [water_increment] that
    this cycle's fetched updates do not overwrite keeps its previous
    value in the merged dict, and a fetched field holds the fetched
    value; whether the cycle succeeds or fails, every field of the
    previously published snapshot is still a field of the published
    snapshot afterwards, so it is never emptied.  When the main fetch
    throws, the consumption fetch succeeds and the previous snapshot
    has 5 fields, the cycle succeeds, is available, and publishes the
    consumption fields merged over the previous ones. *)
Theorem snapshot_accumulates (entry : config_entry) (w : world)
    (c c1 : coordinator) (jobs1 : list job) :
  ensure_auth entry w c = (c1, Ok (), jobs1) ->
  (forall c3 d jobs2,
     merge entry w c1 = (c3, Ok d, jobs2) ->
     (forall k v, previous_data c !! k = Some v ->
                  fetched_updates entry w c1 !! k = None ->
                  k <> "water_increment" ->
                  d !! k = Some v)
     /\ (forall k v, fetched_updates entry w c1 !! k = Some v ->
                     d !! k = Some v))
  /\ (forall k, is_Some (previous_data c !! k) ->
                is_Some (previous_data (async_refresh entry w c) !! k))
  /\ (forall e cd,
        _get_main_data w (receipt_line_key c1) = Raise e ->
        _get_consumption_data w (receipt_line_key c1) = Ok cd ->
        size (previous_data c) = 5%nat ->
        water_int (previous_data c) ->
        exists d,
          run_result (_async_update_data entry w c) = Ok d
          /\ data (async_refresh entry w c) = Some d
          /\ available (async_refresh entry w c) = true
          /\ (forall k v, cd !! k = Some v -> d !! k = Some v)
          /\ (forall k v, previous_data c !! k = Some v ->
                          cd !! k = None ->
                          k <> "water_increment" ->
                          d !! k = Some v)).
Proof.
  intros Hauth.
  destruct (ensure_auth_state _ _ _ _ _ _ Hauth) as (Hdata1 & _).
  assert (Hprev : previous_data c1 = previous_data c)
    by (unfold previous_data; now rewrite Hdata1).
  destruct (fetched_updates_water_int entry w c1) as (_ & Hnoincr).
  assert (Hfields : forall c3 d jobs2,
    merge entry w c1 = (c3, Ok d, jobs2) ->
    (forall k v, previous_data c !! k = Some v ->
                 fetched_updates entry w c1 !! k = None ->
                 k <> "water_increment" -> d !! k = Some v)
    /\ (forall k v, fetched_updates entry w c1 !! k = Some v ->
                    d !! k = Some v)).
  { intros c3 d jobs2 Hmerge.
    destruct (merged_lookup _ _ _ _ _ _ Hmerge) as (Hsame & _).
    rewrite Hprev in Hsame. split.
    - intros k v Hk Hnone Hne. rewrite (Hsame k Hne). now rewrite Hnone.
    - intros k v Hk. rewrite Hsame; [now rewrite Hk|].
      intros ->. congruence. }
  split; [exact Hfields|split].
  - intros k Hk.
    destruct (merge entry w c1) as [[c3 [d|e]] jobs2] eqn:Emerge.
    + destruct (merged_lookup _ _ _ _ _ _ Emerge) as (_ & Hkeys & _).
      rewrite Hprev in Hkeys.
      destruct (merged_outcome _ _ _ _ _ _ _ _ Hauth Emerge) as [Hlow Hhigh].
      destruct (Nat.lt_ge_cases (size d) 3) as [Hs|Hs].
      * destruct (Hlow Hs) as (_ & Hsame & _).
        unfold previous_data at 1. now rewrite Hsame.
      * destruct (Hhigh Hs) as (_ & Hpub & _).
        unfold previous_data at 1. rewrite Hpub. simpl. now apply Hkeys.
    + destruct (merge_raises _ _ _ _ _ _ _ _ Hauth Emerge) as [err Herr].
      destruct (failed_cycle_keeps_data _ _ _ _ Herr) as (Hsame & _).
      unfold previous_data at 1. now rewrite Hsame.
  - intros e cd Hmain Hcons Hsize Hint.
    destruct (merge_total entry w c1) as (c3 & d & jobs2 & Hmerge);
      [now rewrite Hprev|].
    destruct (merged_lookup _ _ _ _ _ _ Hmerge) as (_ & _ & Hge).
    rewrite Hprev, Hsize in Hge.
    destruct (merged_outcome _ _ _ _ _ _ _ _ Hauth Hmerge) as [_ Hhigh].
    destruct Hhigh as (Hres & Hpub & Hav); [lia|].
    assert (Hfetched : fetched_updates entry w c1 = cd).
    { unfold fetched_updates, main_stage, consumption_stage.
      rewrite Hmain. destruct (main_due entry w c1); rewrite Hcons;
        unfold dict_update; apply (right_id_L ∅ (∪)). }
    destruct (Hfields _ _ _ Hmerge) as [Hkeep Hnew].
    rewrite Hfetched in Hkeep, Hnew.
    exists d. repeat split; assumption.
Qed.

(** C6: with the device page at hand, a missing live container makes
    [_get_consumption_data] raise, and the cycle merges nothing from
    it; with the live container found and the fragment returned, a
    missing graph container makes it return the empty dict without
    raising, and the cycle goes on with the previous snapshot and the
    main data alone. *)
Theorem live_fatal_graph_optional (w : world) (key : option string)
    (page : soup) :
  device_get w (key_text key) = Ok page ->
  (find_div "data-controller" "live" page = None ->
     _get_consumption_data w key = Raise (UpdateFailed "Live div not found")
     /\ (forall c d, receipt_line_key c = key -> consumption_stage w c d = d))
  /\ (forall live_div props fragment,
        find_div "data-controller" "live" page = Some live_div ->
        json_loads (html_unescape
          (tag_get live_div "data-live-props-value" "")) = Ok props ->
        load_conso_post w (json_dumps
          (JObj [("props", props); ("updated", JObj []); ("args", JObj [])]))
          = Ok fragment ->
        find_div "id" "graph_device" fragment = None ->
        _get_consumption_data w key = Ok ∅
        /\ (forall c d, receipt_line_key c = key ->
                        consumption_stage w c d = d)
        /\ (forall entry c, receipt_line_key c = key ->
              merge entry w c =
                let '(c2, d1, jobs) :=
                  main_stage entry w c (previous_data c) in
                (water_stage c2 d1, (jobs ++ [GetConsumptionData])%list))).
Proof.
  intros Hpage. split.
  - intros Hlive.
    assert (Hraise : _get_consumption_data w key =
              Raise (UpdateFailed "Live div not found")).
    { unfold _get_consumption_data, fetch_graph, mbind, result_bind.
      now rewrite Hpage, Hlive. }
    split; [exact Hraise|].
    intros c d <-. unfold consumption_stage. now rewrite Hraise.
  - intros live_div props fragment Hlive Hprops Hpost Hgraph.
    assert (Hempty : _get_consumption_data w key = Ok ∅).
    { unfold _get_consumption_data, fetch_graph, mbind, result_bind.
      rewrite Hpage, Hlive, Hprops, Hpost, Hgraph. reflexivity. }
    assert (Hstage : forall c d, receipt_line_key c = key ->
              consumption_stage w c d = d).
    { intros c d <-. unfold consumption_stage. rewrite Hempty.
      unfold dict_update. apply (left_id_L ∅ (∪)). }
    split; [exact Hempty|split; [exact Hstage|]].
    intros entry c Hkey. unfold merge.
    destruct (main_stage entry w c (previous_data c)) as [[c2 d1] jobs] eqn:Emain.
    destruct (main_stage_state _ _ _ _ _ _ _ Emain) as (_ & _ & Hkey2 & _).
    rewrite Hstage by congruence. reflexivity.
Qed.

Lemma try_body_jobs_unheld entry w c :
  token_held c = false ->
  exists rest, run_jobs (try_body entry w c) = Authenticate :: rest.
Proof.
  intros Hheld. unfold try_body, ensure_auth. rewrite Hheld.
  destruct (_authenticate entry w c) as [c1 [[]|e]]; simpl; [|eauto].
  destruct (merge entry w c1) as [[c3 merged] jobs2]. simpl. eauto.
Qed.

Lemma update_jobs entry w c :
  run_jobs (_async_update_data entry w c) = run_jobs (try_body entry w c).
Proof.
  unfold _async_update_data.
  destruct (run_result (try_body entry w c)); [reflexivity|].
  unfold on_error. reflexivity.
Qed.

(** A held token survives the [try] body. *)
Lemma try_body_keeps_token entry w c :
  token_held c = true ->
  receipt_line_key (run_state (try_body entry w c)) = receipt_line_key c.
Proof.
  intros Hheld. unfold try_body. rewrite (ensure_auth_held _ _ _ Hheld).
  destruct (merge entry w c) as [[c3 merged] jobs2] eqn:Emerge.
  destruct (merge_state _ _ _ _ _ _ Emerge) as (_ & _ & Hkey). exact Hkey.
Qed.

(** C8: when the [try] body raises [err], the cycle reports
    "Error communicating with API: " followed by [str(err)].  If that
    text contains "401" or "403", the receipt line key is [None] when
    the failure is reported, it is still [None] once the host has
    recorded the failure, and whatever the site answers next, the next
    cycle starts with the [_authenticate] job.  Otherwise the handler
    leaves the key as the [try] body left it, which for a cycle that
    started with a key is the key it started with. *)
Theorem auth_error_clears_token (entry : config_entry) (w : world)
    (c : coordinator) (err : exn) :
  run_result (try_body entry w c) = Raise err ->
  run_result (_async_update_data entry w c) =
    Raise (UpdateFailed
      (String.append "Error communicating with API: " (exn_str err)))
  /\ (auth_marker err = true ->
        receipt_line_key (run_state (_async_update_data entry w c)) = None
        /\ receipt_line_key (async_refresh entry w c) = None
        /\ forall w', exists rest,
             run_jobs (_async_update_data entry w' (async_refresh entry w c))
               = Authenticate :: rest)
  /\ (auth_marker err = false ->
        receipt_line_key (run_state (_async_update_data entry w c)) =
          receipt_line_key (run_state (try_body entry w c))
        /\ (token_held c = true ->
              receipt_line_key (async_refresh entry w c) = receipt_line_key c)).
Proof.
  intros Herr.
  assert (Hrefresh : receipt_line_key (async_refresh entry w c) =
            receipt_line_key (run_state (_async_update_data entry w c))).
  { unfold async_refresh.
    destruct (run_result (_async_update_data entry w c)); reflexivity. }
  rewrite Hrefresh. rewrite (update_raises _ _ _ _ Herr). simpl.
  split; [reflexivity|]. split; intros Hmarker; rewrite Hmarker.
  - split; [reflexivity|]. split; [reflexivity|].
    intros w'. rewrite update_jobs. apply try_body_jobs_unheld.
    unfold token_held. rewrite Hrefresh.
    rewrite (update_raises _ _ _ _ Herr). simpl. now rewrite Hmarker.
  - split; [reflexivity|]. apply try_body_keeps_token.
Qed.

Lemma main_stage_timestamp entry w c d :
  _last_main_update (main_stage entry w c d).1.1 =
    if main_due entry w c && is_ok (_get_main_data w (receipt_line_key c))
    then loop_time' w else _last_main_update c.
Proof.
  unfold main_stage. destruct (main_due entry w c); [|reflexivity].
  destruct (_get_main_data w (receipt_line_key c)); reflexivity.
Qed.

(** The timestamp a cycle leaves behind. *)
Lemma update_timestamp entry w c :
  _last_main_update (run_state (_async_update_data entry w c)) =
    match ensure_auth entry w c with
    | (c1, Ok _, _) =>
        if main_due entry w c1 && is_ok (_get_main_data w (receipt_line_key c1))
        then loop_time' w else _last_main_update c
    | (_, Raise _, _) => _last_main_update c
    end.
Proof.
  assert (Hbody : _last_main_update (run_state (_async_update_data entry w c)) =
            _last_main_update (run_state (try_body entry w c))).
  { unfold _async_update_data.
    destruct (run_result (try_body entry w c)) as [d|e]; [reflexivity|].
    simpl. apply on_error_state. }
  rewrite Hbody. unfold try_body.
  destruct (ensure_auth entry w c) as [[c1 auth] jobs1] eqn:Eauth.
  destruct (ensure_auth_state _ _ _ _ _ _ Eauth) as (_ & _ & Hlast & _).
  destruct auth as [[]|e]; [|exact Hlast].
  rewrite <- Hlast, <- (main_stage_timestamp entry w c1 (previous_data c1)).
  unfold merge.
  destruct (main_stage entry w c1 (previous_data c1)) as [[c2 d1] jobs] eqn:Emain.
  destruct (water_stage c2 (consumption_stage w c2 d1)) as [c3 r] eqn:Ewater.
  destruct (water_stage_state _ _ _ _ Ewater) as (_ & _ & _ & Hmain).
  exact Hmain.
Qed.

(** C9: when the main fetch is attempted and fails, the main stage
    changes neither the state nor the dict, the consumption job still
    runs, and the merged dict is the one of the previous snapshot and
    the consumption data alone; the cycle leaves [_last_main_update]
    at its prior value, and a previous snapshot of three or more
    fields keeps the cycle successful and available with all its
    fields.  In every cycle, [_last_main_update] changes only if the
    main fetch was attempted and succeeded. *)
Theorem main_failure_not_fatal (entry : config_entry) (w : world)
    (c : coordinator) :
  (forall c1 jobs1 err,
     ensure_auth entry w c = (c1, Ok (), jobs1) ->
     main_due entry w c1 = true ->
     _get_main_data w (receipt_line_key c1) = Raise err ->
     (forall d, main_stage entry w c1 d = (c1, d, [GetMainData]))
     /\ merge entry w c1 =
          (water_stage c1 (consumption_stage w c1 (previous_data c1)),
           [GetMainData; GetConsumptionData])
     /\ In GetConsumptionData (run_jobs (_async_update_data entry w c))
     /\ _last_main_update (run_state (_async_update_data entry w c)) =
          _last_main_update c
     /\ _last_main_update (async_refresh entry w c) = _last_main_update c
     /\ (water_int (previous_data c) ->
         (3 <= size (previous_data c))%nat ->
         available (async_refresh entry w c) = true
         /\ forall k, is_Some (previous_data c !! k) ->
                      is_Some (previous_data (async_refresh entry w c) !! k)))
  /\ (_last_main_update (run_state (_async_update_data entry w c)) <>
        _last_main_update c ->
      exists c1 jobs1 m,
        ensure_auth entry w c = (c1, Ok (), jobs1)
        /\ main_due entry w c1 = true
        /\ _get_main_data w (receipt_line_key c1) = Ok m).
Proof.
  split.
  - intros c1 jobs1 err Hauth Hdue Hmain.
    destruct (ensure_auth_state _ _ _ _ _ _ Hauth) as (Hdata1 & _).
    assert (Hprev : previous_data c1 = previous_data c)
      by (unfold previous_data; now rewrite Hdata1).
    assert (Hstage : forall d, main_stage entry w c1 d = (c1, d, [GetMainData])).
    { intros d. unfold main_stage. now rewrite Hdue, Hmain. }
    assert (Hmerge : merge entry w c1 =
              (water_stage c1 (consumption_stage w c1 (previous_data c1)),
               [GetMainData; GetConsumptionData])).
    { unfold merge. now rewrite Hstage. }
    assert (Hlast : _last_main_update (run_state (_async_update_data entry w c)) =
              _last_main_update c).
    { rewrite update_timestamp, Hauth, Hdue, Hmain. reflexivity. }
    split; [exact Hstage|]. split; [exact Hmerge|]. split; [|split; [|split]].
    + rewrite update_jobs, (try_body_after_auth _ _ _ _ _ Hauth), Hmerge.
      destruct (water_stage _ _) as [c3 merged]. simpl.
      apply in_or_app. right. simpl. auto.
    + exact Hlast.
    + unfold async_refresh.
      destruct (run_result (_async_update_data entry w c)); exact Hlast.
    + intros Hint Hsize.
      destruct (merge_total entry w c1) as (c3 & d & jobs2 & Hm);
        [now rewrite Hprev|].
      destruct (merged_lookup _ _ _ _ _ _ Hm) as (_ & Hkeys & Hge).
      rewrite Hprev in Hkeys, Hge.
      destruct (merged_outcome _ _ _ _ _ _ _ _ Hauth Hm) as [_ Hhigh].
      destruct Hhigh as (_ & Hpub & Hav); [lia|].
      split; [exact Hav|]. intros k Hk.
      unfold previous_data at 1. rewrite Hpub. simpl. now apply Hkeys.
  - rewrite update_timestamp.
    destruct (ensure_auth entry w c) as [[c1 [[]|e]] jobs1]; [|congruence].
    destruct (main_due entry w c1) eqn:Edue; [|simpl; congruence].
    destruct (_get_main_data w (receipt_line_key c1)) as [m|e] eqn:Emain;
      [|simpl; congruence].
    intros _. exists c1, jobs1, m. auto.
Qed.

Lemma water_stage_raises c d c' e :
  water_stage c d = (c', Raise e) ->
  e = Exn "TypeError" "'<' not supported for water_consumption".
Proof.
  unfold water_stage. repeat case_match; intros [= <- <-]; reflexivity.
Qed.

(** C10: every result of [_get_main_data] has the keys [online],
    [standby] and [salt], hence at least three fields; [salt] is
    [None] when the summary has no salt under [data] and no category
    item renamed to [salt].  In a cycle whose main fetch succeeds the
    merged dict has at least three fields, the cycle returns it, and
    the cycle never fails with the insufficient-data error. *)
Theorem main_data_guarantees_floor :
  (forall w key r,
     _get_main_data w key = Ok r ->
     is_Some (r !! "online") /\ is_Some (r !! "standby")
     /\ is_Some (r !! "salt") /\ (3 <= size r)%nat)
  /\ (forall w key r rsp data d cats,
        _get_main_data w key = Ok r ->
        summary_get w (key_text key) = Ok rsp ->
        response_json rsp = Ok data ->
        dict_get data "data" (JObj []) = Ok d ->
        dict_get d "salt" JNull = Ok JNull ->
        dict_get data "dataCategories" (JObj []) = Ok (JObj cats) ->
        (forall item v, In item (category_items cats) ->
                        ~ renames item "salt" v) ->
        r !! "salt" = Some VNone)
  /\ (forall entry w c c1 jobs1 m,
        ensure_auth entry w c = (c1, Ok (), jobs1) ->
        main_due entry w c1 = true ->
        _get_main_data w (receipt_line_key c1) = Ok m ->
        run_result (_async_update_data entry w c) <> Raise insufficient_data
        /\ forall c3 d jobs2,
             merge entry w c1 = (c3, Ok d, jobs2) ->
             (3 <= size d)%nat
             /\ run_result (_async_update_data entry w c) = Ok d).
Proof.
  split; [|split].
  - intros w key r Hmain.
    pose proof (main_data_base_keys _ _ _ "online" Hmain) as Ho.
    pose proof (main_data_base_keys _ _ _ "standby" Hmain) as Hs.
    pose proof (main_data_base_keys _ _ _ "salt" Hmain) as Hsalt.
    repeat split; try (simpl in *; tauto).
    apply three_fields. intros k. now apply main_data_base_keys with (w := w) (key := key).
  - intros w key r rsp data d cats Hmain Hrsp Hdata Hd Hsalt Hcats Hnone.
    destruct (get_main_data_inv _ _ _ Hmain)
      as (rsp' & data' & d' & online & standby & salt & cats' &
          Hrsp' & _ & Hdata' & _ & Hd' & _ & Hsalt' & Hcats' & ->).
    rewrite Hrsp in Hrsp'. injection Hrsp' as <-.
    rewrite Hdata in Hdata'. injection Hdata' as <-.
    rewrite Hd in Hd'. injection Hd' as <-.
    rewrite Hsalt in Hsalt'. injection Hsalt' as <-.
    rewrite Hcats in Hcats'. injection Hcats' as <-.
    rewrite fold_apply_write_lookup.
    destruct (last_write "salt" (category_items cats)) as [v|] eqn:E.
    + destruct (last_write_Some _ _ _ E) as (item & Hin & Hr).
      exfalso. exact (Hnone item v Hin Hr).
    + reflexivity.
  - intros entry w c c1 jobs1 m Hauth Hdue Hmain.
    assert (Hsize : forall c3 d jobs2,
      merge entry w c1 = (c3, Ok d, jobs2) -> (3 <= size d)%nat).
    { intros c3 d jobs2 Hmerge.
      destruct (merged_lookup _ _ _ _ _ _ Hmerge) as (Hsame & _).
      apply three_fields. intros k Hk.
      rewrite Hsame by (simpl in Hk; intuition (subst; discriminate)).
      assert (Hf : is_Some (fetched_updates entry w c1 !! k)).
      { unfold fetched_updates, main_stage, consumption_stage.
        rewrite Hdue, Hmain.
        destruct (_get_consumption_data w _) as [cd|];
          rewrite ?dict_update_lookup;
          try destruct (cd !! k); eauto;
          destruct (main_data_base_keys _ _ _ k Hmain Hk) as [x ->]; eauto. }
      destruct Hf as [x ->]. eauto. }
    split.
    + destruct (merge entry w c1) as [[c3 [d|e]] jobs2] eqn:Emerge.
      * destruct (merged_outcome _ _ _ _ _ _ _ _ Hauth Emerge) as [_ Hhigh].
        destruct Hhigh as (-> & _); [eauto|discriminate].
      * pose proof (try_body_after_auth _ _ _ _ _ Hauth) as Hbody.
        rewrite Emerge in Hbody.
        assert (Herr : run_result (try_body entry w c) = Raise e)
          by now rewrite Hbody.
        rewrite (update_raises _ _ _ _ Herr). simpl.
        unfold merge in Emerge.
        destruct (main_stage entry w c1 (previous_data c1)) as [[c2 d1] jobs].
        injection Emerge as Ewater _.
        destruct (water_stage c2 _) as [c' r'] eqn:Ew.
        injection Ewater as -> ->.
        rewrite (water_stage_raises _ _ _ _ Ew). discriminate.
    + intros c3 d jobs2 Hmerge. split; [eauto|].
      destruct (merged_outcome _ _ _ _ _ _ _ _ Hauth Hmerge) as [_ Hhigh].
      apply Hhigh. eauto.
Qed.

End CycleFacts.

(** ** The statements at work on the fixtures *)

(** Two cycles that read the cumulative values 0 and then 150 publish
    the increment 0 twice. *)
Example increment_after_zero_reading :
  let c1 := async_refresh (H := Fixture.lib) (H0 := Fixture.const)
              Fixture.entry (Fixture.online "midnight") init in
  let c2 := async_refresh (H := Fixture.lib) (H0 := Fixture.const)
              Fixture.entry (Fixture.online "day") c1 in
  previous_data c1 !! "water_consumption" = Some (VInt 0)
  /\ previous_data c1 !! "water_increment" = Some (VInt 0)
  /\ previous_data c2 !! "water_consumption" = Some (VInt 150)
  /\ previous_data c2 !! "water_increment" = Some (VInt 0).
Proof. vm_compute. repeat split; reflexivity. Qed.

Lemma sufficiency_floor_witness :
  run_result (_async_update_data (H := Fixture.lib) (H0 := Fixture.const)
                Fixture.entry Fixture.offline (Fixture.with_key init))
    = Raise insufficient_data
  /\ available (async_refresh (H := Fixture.lib) (H0 := Fixture.const)
                  Fixture.entry Fixture.offline (Fixture.with_key init))
     = false.
Proof.
  destruct (sufficiency_floor (H := Fixture.lib) (H0 := Fixture.const)
              Fixture.entry Fixture.offline (Fixture.with_key init)
              (Fixture.with_key init) [] eq_refl) as [_ Hfirst].
  apply Hfirst.
  - reflexivity.
  - eexists. reflexivity.
  - eexists. reflexivity.
Defined.

(** C5 as stated fails on the code.  Two cycles read the cumulative
    values 150 and 180 and publish [water_increment = 30]; in the third
    the site does not answer, so neither fetch brings an update, yet the
    snapshot the cycle returns holds [water_increment = 0]. *)
Lemma accumulation_counterexample :
  let refresh := async_refresh (H := Fixture.lib) (H0 := Fixture.const)
                   Fixture.entry in
  let c := refresh (Fixture.online "evening")
             (refresh (Fixture.online "day") init) in
  ensure_auth Fixture.entry Fixture.offline c = (c, Ok (), [])
  /\ previous_data c !! "water_increment" = Some (VInt 30)
  /\ fetched_updates (H := Fixture.lib) (H0 := Fixture.const)
       Fixture.entry Fixture.offline c = ∅
  /\ match run_result
             (_async_update_data (H := Fixture.lib) (H0 := Fixture.const)
                Fixture.entry Fixture.offline c) with
     | Ok d => d !! "water_increment" = Some (VInt 0)
               /\ d !! "water_increment" <> previous_data c !! "water_increment"
     | Raise _ => False
     end.
Proof.
  vm_compute. repeat split; try reflexivity. discriminate.
Qed.

Lemma snapshot_accumulates_witness :
  exists d,
    run_result (_async_update_data (H := Fixture.lib) (H0 := Fixture.const)
                  Fixture.entry (Fixture.main_down "day") Fixture.warm) = Ok d
    /\ available (async_refresh (H := Fixture.lib) (H0 := Fixture.const)
                    Fixture.entry (Fixture.main_down "day") Fixture.warm) = true
    /\ d !! "online" = Some (VJson (JBool true))
    /\ d !! "water_consumption" = Some (VInt 150).
Proof.
  destruct (snapshot_accumulates (H := Fixture.lib) (H0 := Fixture.const)
              Fixture.entry (Fixture.main_down "day") Fixture.warm
              Fixture.warm [] eq_refl) as (_ & _ & Hscenario).
  destruct (Hscenario (UpdateFailed "Failed to fetch main data")
              Fixture.day_fields)
    as (d & Hres & _ & Hav & Hnew & Hkeep).
  - reflexivity.
  - vm_compute. reflexivity.
  - vm_compute. reflexivity.
  - intros v Hv. vm_compute in Hv. injection Hv as <-. eexists. reflexivity.
  - exists d. split; [exact Hres|]. split; [exact Hav|]. split.
    + apply Hkeep; [reflexivity | vm_compute; reflexivity | discriminate].
    + apply Hnew. vm_compute. reflexivity.
Defined.

Lemma live_fatal_graph_optional_witness :
  _get_consumption_data (H := Fixture.lib) Fixture.no_graph (Some "K1") = Ok ∅.
Proof.
  destruct (live_fatal_graph_optional (H := Fixture.lib) (H0 := Fixture.const)
              Fixture.no_graph (Some "K1") Fixture.live_page eq_refl)
    as [_ Hgraph].
  destruct (Hgraph
              {| tag_attrs := [("data-controller", "live");
                               ("data-live-props-value", "props")] |}
              (JObj [("receiptLineKey", JStr "K1")])
              [ {| tag_attrs := [("id", "menu")] |} ]
              eq_refl eq_refl eq_refl eq_refl) as [Hempty _].
  exact Hempty.
Defined.

Lemma auth_error_clears_token_witness :
  auth_marker (UpdateFailed "Serial number SN401 not found in dashboard") = true
  /\ receipt_line_key
       (async_refresh (H := Fixture.lib) (H0 := Fixture.const)
          Fixture.entry Fixture.no_device init) = None
  /\ forall w', exists rest,
       run_jobs (_async_update_data (H := Fixture.lib) (H0 := Fixture.const)
                   Fixture.entry w'
                   (async_refresh (H := Fixture.lib) (H0 := Fixture.const)
                      Fixture.entry Fixture.no_device init))
         = Authenticate :: rest.
Proof.
  destruct (auth_error_clears_token (H := Fixture.lib) (H0 := Fixture.const)
              Fixture.entry Fixture.no_device init
              (UpdateFailed "Serial number SN401 not found in dashboard")
              eq_refl) as (_ & Hmarked & _).
  destruct (Hmarked eq_refl) as (_ & Hkey & Hnext).
  split; [reflexivity|]. split; assumption.
Defined.

Lemma main_failure_not_fatal_witness :
  _last_main_update
    (async_refresh (H := Fixture.lib) (H0 := Fixture.const)
       Fixture.entry (Fixture.main_down "day") Fixture.warm) = 0
  /\ available
       (async_refresh (H := Fixture.lib) (H0 := Fixture.const)
          Fixture.entry (Fixture.main_down "day") Fixture.warm) = true.
Proof.
  destruct (main_failure_not_fatal (H := Fixture.lib) (H0 := Fixture.const)
              Fixture.entry (Fixture.main_down "day") Fixture.warm)
    as [Hfail _].
  destruct (Hfail Fixture.warm [] (UpdateFailed "Failed to fetch main data")
              eq_refl eq_refl eq_refl)
    as (_ & _ & _ & _ & Hlast & Hav).
  split; [exact Hlast|].
  apply Hav.
  - intros v Hv. vm_compute in Hv. injection Hv as <-. eexists. reflexivity.
  - vm_compute. lia.
Defined.

Lemma main_data_guarantees_floor_witness :
  run_result (_async_update_data (H := Fixture.lib) (H0 := Fixture.const)
                Fixture.entry (Fixture.online "day") init)
    <> Raise insufficient_data.
Proof.
  destruct (main_data_guarantees_floor (H := Fixture.lib) (H0 := Fixture.const))
    as (_ & _ & Hcycle).
  destruct (Hcycle Fixture.entry (Fixture.online "day") init
              (Fixture.with_key init) [Authenticate]
              (<["resin_vol" := VInt 18]>
                 (main_base (JBool true) (JBool false) JNull)))
    as [Hne _].
  - reflexivity.
  - reflexivity.
  - vm_compute. reflexivity.
  - exact Hne.
Defined.

(** * Further properties of the code *)

(** ** The receipt line key *)

Lemma prefix_empty s : String.prefix "" s = true.
Proof. destruct s; reflexivity. Qed.

Lemma append_nil s : String.append "" s = s.
Proof. reflexivity. Qed.

Lemma append_cons c m s :
  String.append (String c m) s = String c (String.append m s).
Proof. reflexivity. Qed.

Lemma prefix_split m s :
  String.prefix m s = true ->
  s = String.append m (string_drop (String.length m) s).
Proof.
  revert s. induction m as [|a m IH]; intros s; [reflexivity|].
  destruct s as [|b s]; [discriminate|]. rewrite append_cons. simpl.
  destruct (ascii_dec a b) as [->|]; [|discriminate].
  intros Hp. f_equal. now apply IH.
Qed.

Lemma prefix_append m a b :
  String.prefix (String.append m a) (String.append m b) = String.prefix a b.
Proof.
  induction m as [|c m IH]; [reflexivity|].
  rewrite !append_cons. simpl.
  destruct (ascii_dec c c); [assumption|congruence].
Qed.

Lemma until_amp_prefix s : String.prefix (until_amp s) s = true.
Proof.
  induction s as [|c s IH]; simpl; [reflexivity|].
  destruct (Ascii.eqb c "&"); simpl; [reflexivity|].
  destruct (ascii_dec c c); [assumption|congruence].
Qed.

Lemma contains_amp_cons c s :
  contains "&" (String c s) = Ascii.eqb c "&" || contains "&" s.
Proof.
  cbn [contains String.prefix].
  destruct (ascii_dec "&" c) as [<-|Hne].
  - now rewrite prefix_empty.
  - destruct (Ascii.eqb_spec c "&"); [congruence|reflexivity].
Qed.

Lemma until_amp_no_amp s : contains "&" (until_amp s) = false.
Proof.
  induction s as [|c s IH]; simpl; [reflexivity|].
  destruct (Ascii.eqb c "&") eqn:E; [reflexivity|].
  now rewrite contains_amp_cons, E.
Qed.

Lemma until_amp_stops k rest :
  contains "&" k = false ->
  rest = "" \/ String.prefix "&" rest = true ->
  until_amp (String.append k rest) = k.
Proof.
  intros Hk Hrest. induction k as [|c k IH].
  - rewrite append_nil. destruct Hrest as [->|Hp]; [reflexivity|].
    destruct rest as [|b rest]; [reflexivity|].
    cbn [String.prefix] in Hp. cbn [until_amp].
    destruct (ascii_dec "&" b) as [<-|]; [reflexivity|discriminate].
  - rewrite append_cons. cbn [until_amp].
    rewrite contains_amp_cons in Hk. apply orb_false_elim in Hk as [-> Hk].
    f_equal. now apply IH.
Qed.

Lemma contains_here needle hay :
  String.prefix needle hay = true -> contains needle hay = true.
Proof. intros Hp. destruct hay; cbn [contains]; rewrite Hp; reflexivity. Qed.

Lemma contains_later needle c hay :
  contains needle hay = true -> contains needle (String c hay) = true.
Proof. intros Hc. cbn [contains]. rewrite Hc. apply orb_true_r. Qed.

Lemma search_key_step c rest :
  search_key (String c rest) =
    let v := if String.prefix "receiptLineKey=" (String c rest)
             then until_amp (string_drop 15 (String c rest))
             else EmptyString in
    match v with
    | EmptyString => search_key rest
    | _ => Some v
    end.
Proof. reflexivity. Qed.

Lemma search_key_found (href k : string) :
  search_key href = Some k ->
  k <> ""
  /\ contains "&" k = false
  /\ contains (String.append "receiptLineKey=" k) href = true.
Proof.
  induction href as [|c href IH]; [discriminate|].
  rewrite search_key_step. cbv zeta.
  destruct (String.prefix "receiptLineKey=" (String c href)) eqn:Ep.
  - destruct (until_amp (string_drop 15 (String c href))) as [|a v] eqn:Ev.
    + intros Hk. destruct (IH Hk) as (? & ? & ?).
      repeat split; try assumption. now apply contains_later.
    + intros [= <-]. split; [discriminate|]. split.
      * rewrite <- Ev. apply until_amp_no_amp.
      * apply contains_here.
        pose proof (prefix_split _ _ Ep) as Hs.
        change (String.length "receiptLineKey=") with 15%nat in Hs.
        rewrite Hs, prefix_append, <- Ev. apply until_amp_prefix.
  - intros Hk. destruct (IH Hk) as (? & ? & ?).
    repeat split; try assumption. now apply contains_later.
Qed.

(** X1: a key found in a link target is never empty, holds no [&], and
    stands in the target right after [receiptLineKey=]. *)
Theorem search_key_sound (href k : string) :
  search_key href = Some k ->
  k <> ""
  /\ contains "&" k = false
  /\ contains (String.append "receiptLineKey=" k) href = true.
Proof. exact (search_key_found href k). Qed.

Lemma search_key_sound_witness :
  contains (String.append "receiptLineKey=" "K1")
    "/device?receiptLineKey=K1&x=1" = true.
Proof.
  apply (search_key_sound "/device?receiptLineKey=K1&x=1" "K1").
  reflexivity.
Defined.

Lemma search_key_marker x :
  until_amp x <> "" ->
  search_key (String.append "receiptLineKey=" x) = Some (until_amp x).
Proof.
  intros Hne.
  pose proof (prefix_append "receiptLineKey=" "" x) as Hp.
  change (String.append "receiptLineKey=" "") with "receiptLineKey=" in Hp.
  rewrite prefix_empty in Hp.
  change (String.append "receiptLineKey=" x)
    with (String "r" (String.append "eceiptLineKey=" x)).
  rewrite search_key_step. cbv zeta.
  change (String "r" (String.append "eceiptLineKey=" x))
    with (String.append "receiptLineKey=" x).
  rewrite Hp.
  change (string_drop 15 (String.append "receiptLineKey=" x)) with x.
  destruct (until_amp x); [congruence|reflexivity].
Qed.

Lemma search_key_skip c rest :
  String.prefix "receiptLineKey=" (String c rest) = false ->
  search_key (String c rest) = search_key rest.
Proof. intros Hp. rewrite search_key_step. cbv zeta. now rewrite Hp. Qed.

(** X2: from a device link of the dashboard, [/device?receiptLineKey=]
    followed by a non-empty key without [&] and then nothing or a
    further [&]-parameter, the search gives back exactly that key. *)
Theorem search_key_device_link (k rest : string) :
  k <> "" ->
  contains "&" k = false ->
  rest = "" \/ String.prefix "&" rest = true ->
  search_key (String.append "/device?receiptLineKey=" (String.append k rest))
    = Some k.
Proof.
  intros Hne Hk Hrest.
  change (String.append "/device?receiptLineKey=" (String.append k rest))
    with (String "/" (String "d" (String "e" (String "v" (String "i"
            (String "c" (String "e" (String "?"
               (String.append "receiptLineKey=" (String.append k rest)))))))))).
  change (String.append "receiptLineKey=" (String.append k rest))
    with (String "r" (String.append "eceiptLineKey=" (String.append k rest))).
  do 8 (rewrite search_key_skip by reflexivity).
  change (String "r" (String.append "eceiptLineKey=" (String.append k rest)))
    with (String.append "receiptLineKey=" (String.append k rest)).
  rewrite search_key_marker; rewrite (until_amp_stops k rest Hk Hrest);
    [reflexivity|assumption].
Qed.

Lemma search_key_device_link_witness :
  search_key (String.append "/device?receiptLineKey="
                (String.append "K1" "&x=1")) = Some "K1".
Proof.
  apply (search_key_device_link "K1" "&x=1").
  - discriminate.
  - reflexivity.
  - right. reflexivity.
Defined.

(** ** [_authenticate] *)

Lemma find_key_first (links : list anchor) :
  match find_receipt_line_key links with
  | Some k =>
      exists l1 link l2,
        links = (l1 ++ link :: l2)%list
        /\ Forall (fun l => qualifies l = false) l1
        /\ anchor_serial link = Some true
        /\ search_key (anchor_href link) = Some k
  | None => Forall (fun l => qualifies l = false) links
  end.
Proof.
  induction links as [|link links IH]; simpl; [constructor|].
  assert (Hskip : qualifies link = false ->
    match find_receipt_line_key links with
    | Some k =>
        exists l1 link' l2,
          link :: links = (l1 ++ link' :: l2)%list
          /\ Forall (fun l => qualifies l = false) l1
          /\ anchor_serial link' = Some true
          /\ search_key (anchor_href link') = Some k
    | None => Forall (fun l => qualifies l = false) (link :: links)
    end).
  { intros Hq. destruct (find_receipt_line_key links) as [k|].
    - destruct IH as (l1 & link' & l2 & -> & Hl1 & Hs & Hk).
      exists (link :: l1), link', l2. repeat split; auto.
    - constructor; assumption. }
  destruct (anchor_serial link) as [[|]|] eqn:Es;
    try (apply Hskip; unfold qualifies; now rewrite Es).
  destruct (search_key (anchor_href link)) as [k|] eqn:Ek;
    [|apply Hskip; unfold qualifies; now rewrite Es, Ek].
  exists [], link, links. repeat split; auto.
Qed.

(** X3: the loop over the device links stops at the first link, in
    document order, whose information block names the serial number and
    whose target carries a key; it finds nothing exactly when no link
    is of that kind. *)
Theorem first_matching_link_wins (links : list anchor) :
  match find_receipt_line_key links with
  | Some k =>
      exists l1 link l2,
        links = (l1 ++ link :: l2)%list
        /\ Forall (fun l => qualifies l = false) l1
        /\ anchor_serial link = Some true
        /\ search_key (anchor_href link) = Some k
  | None => Forall (fun l => qualifies l = false) links
  end.
Proof. exact (find_key_first links). Qed.

Lemma find_key_Some_iff links :
  is_Some (find_receipt_line_key links) <->
  Exists (fun l => qualifies l = true) links.
Proof.
  induction links as [|link links IH]; simpl.
  - split; [intros [? [=]]|intros Hex; inversion Hex].
  - rewrite Exists_cons. unfold qualifies at 1.
    destruct (anchor_serial link) as [[|]|];
      try (rewrite IH; intuition discriminate).
    destruct (search_key (anchor_href link)); [intuition eauto|].
    rewrite IH; intuition discriminate.
Qed.

Lemma authenticate_cases (entry : config_entry) (w : world) (c : coordinator) :
  ((_authenticate entry w c).2 = Ok () <->
     login_post w = Ok 200
     /\ exists anchors,
          dashboard_get w = Ok anchors
          /\ Exists (fun l => qualifies l = true) (device_links anchors))
  /\ ((_authenticate entry w c).2 = Ok () ->
      exists k,
        (_authenticate entry w c).1 = set_receipt_line_key (Some k) c
        /\ k <> "" /\ contains "&" k = false)
  /\ (forall err, (_authenticate entry w c).2 = Raise err ->
        (_authenticate entry w c).1 = c).
Proof.
  unfold _authenticate.
  destruct (login_post w) as [status|e].
  2:{ simpl. repeat split; try discriminate; auto.
      intros (Hl & _). discriminate. }
  destruct (Z.eqb_spec status 200) as [->|Hne]; simpl.
  2:{ repeat split; try discriminate; auto.
      intros (Hl & _). congruence. }
  destruct (dashboard_get w) as [anchors|e].
  2:{ simpl. repeat split; try discriminate; auto.
      intros (_ & a & Hd & _). discriminate. }
  pose proof (find_key_Some_iff (device_links anchors)) as Hiff.
  pose proof (find_key_first (device_links anchors)) as Hfirst.
  destruct (find_receipt_line_key (device_links anchors)) as [k|]; simpl.
  - split; [|split].
    + split; [|reflexivity]. intros _. split; [reflexivity|].
      exists anchors. split; [reflexivity|]. apply Hiff. eauto.
    + intros _. exists k. split; [reflexivity|].
      destruct Hfirst as (l1 & link & l2 & _ & _ & _ & Hk).
      destruct (search_key_found _ _ Hk) as (? & ? & _). auto.
    + discriminate.
  - split; [|split].
    + split; [discriminate|]. intros (_ & a & [= <-] & Hex).
      apply Hiff in Hex. destruct Hex as [? [=]].
    + discriminate.
    + reflexivity.
Qed.



Section AuthFacts.
Context `{PyLib} `{Const}.

(** X5: a cycle that starts without a key and whose [_authenticate]
    raises runs no other job, reports the wrapped error, and leaves the
    published snapshot, both timestamps of the state and the missing key
    as they were; the entities become unavailable.  A login answered
    with a status other than 200 is the error "Authentication failed". *)
Theorem failed_authentication_aborts (entry : config_entry) (w : world)
    (c : coordinator) (err : exn) :
  token_held c = false ->
  (_authenticate entry w c).2 = Raise err ->
  run_jobs (_async_update_data entry w c) = [Authenticate]
  /\ run_result (_async_update_data entry w c) =
       Raise (UpdateFailed
         (String.append "Error communicating with API: " (exn_str err)))
  /\ data (async_refresh entry w c) = data c
  /\ _last_main_update (async_refresh entry w c) = _last_main_update c
  /\ _last_water_consumption (async_refresh entry w c) =
       _last_water_consumption c
  /\ token_held (async_refresh entry w c) = false
  /\ available (async_refresh entry w c) = false
  /\ (forall status, login_post w = Ok status -> status <> 200 ->
        err = UpdateFailed "Authentication failed").
Proof.
  intros Hheld Hauth.
  destruct (authenticate_cases entry w c) as (_ & _ & Hsame).
  specialize (Hsame err Hauth).
  assert (Hbody : try_body entry w c =
            {| run_state := c; run_result := Raise err;
               run_jobs := [Authenticate] |}).
  { unfold try_body, ensure_auth. rewrite Hheld.
    destruct (_authenticate entry w c) as [c1 r]. simpl in *.
    now subst. }
  assert (Herr : run_result (try_body entry w c) = Raise err)
    by now rewrite Hbody.
  unfold async_refresh. rewrite (update_raises _ _ _ _ Herr), Hbody.
  simpl. unfold token_held in *.
  repeat split; try (destruct (auth_marker err); simpl; auto; fail).
  intros status Hlogin Hne. unfold _authenticate in Hauth.
  rewrite Hlogin in Hauth.
  destruct (Z.eqb_spec status 200); [contradiction|].
  simpl in Hauth. congruence.
Qed.

End AuthFacts.

Lemma failed_authentication_aborts_witness :
  run_jobs (_async_update_data (H := Fixture.lib) (H0 := Fixture.const)
              Fixture.entry Fixture.no_device init) = [Authenticate]
  /\ data (async_refresh (H := Fixture.lib) (H0 := Fixture.const)
             Fixture.entry Fixture.no_device init) = None.
Proof.
  destruct (failed_authentication_aborts (H := Fixture.lib)
              (H0 := Fixture.const) Fixture.entry Fixture.no_device init
              (UpdateFailed "Serial number SN401 not found in dashboard")
              eq_refl eq_refl) as (Hjobs & _ & Hdata & _).
  split; assumption.
Defined.

(** ** More on [_get_main_data] *)

Lemma last_write_app k l1 l2 :
  last_write k (l1 ++ l2) =
    match last_write k l2 with
    | Some v => Some v
    | None => last_write k l1
    end.
Proof.
  induction l1 as [|item l1 IH]; simpl.
  - destruct (last_write k l2); reflexivity.
  - rewrite IH. destruct (last_write k l2); reflexivity.
Qed.

(** The catalog read backwards. *)
Lemma code_mapping_inverse c k :
  attr_lookup c code_mapping = Some k ->
  attr_lookup k
    [ ("resin_vol", "resinVol"); ("in_hardness", "inHardness");
      ("out_hardness", "outHardness"); ("pressure", "pressure");
      ("salt", "salt"); ("vol_ok", "volOK"); ("wifi_signal", "rssiLevel") ]
    = Some c.
Proof.
  unfold code_mapping, attr_lookup.
  repeat match goal with
         | |- context [String.eqb c ?s] =>
             destruct (String.eqb_spec c s) as [->|?];
             [intros [= <-]; reflexivity|]
         end.
  intros [=].
Qed.

Lemma code_mapping_injective c1 c2 k :
  attr_lookup c1 code_mapping = Some k ->
  attr_lookup c2 code_mapping = Some k ->
  c1 = c2.
Proof.
  intros H1 H2. apply code_mapping_inverse in H1, H2. congruence.
Qed.

Lemma main_item_dict res item r :
  main_item res item = Ok r -> exists ms, item = JObj ms.
Proof. destruct item; try discriminate. eauto. Qed.

Lemma for_each_main_item_dicts items res r :
  for_each main_item items res = Ok r ->
  Forall (fun item => exists ms, item = JObj ms) items.
Proof.
  revert res. induction items as [|item items IH]; intros res; simpl;
    [constructor|].
  unfold mbind, result_bind.
  destruct (main_item res item) as [res'|e] eqn:Eitem; [|discriminate].
  intros Hrest. constructor; [now apply main_item_dict in Eitem | eauto].
Qed.

Lemma for_each_main_category_dicts cats res r :
  for_each main_category cats res = Ok r ->
  Forall (fun item => exists ms, item = JObj ms) (category_items cats).
Proof.
  revert res. induction cats as [|[name cdata] cats IH]; intros res; simpl;
    [constructor|].
  unfold mbind, result_bind.
  destruct (main_category res (name, cdata)) as [res'|e] eqn:Ecat;
    [|discriminate].
  intros Hrest. apply Forall_app. split; [|eauto].
  unfold main_category in Ecat. simpl in Ecat.
  destruct cdata; try constructor.
  now apply for_each_main_item_dicts in Ecat.
Qed.

Lemma main_keys_in (w : world) (key : option string) (r : snapshot)
    (k : string) :
  _get_main_data w key = Ok r ->
  is_Some (r !! k) ->
  In k main_keys.
Proof.
  intros Hmain Hk.
  destruct (get_main_data_inv _ _ _ Hmain)
    as (rsp & data & d & online & standby & salt & cats & _ & _ & _ & _ & _ &
        _ & _ & _ & ->).
  rewrite fold_apply_write_lookup in Hk.
  destruct (last_write k (category_items cats)) as [v|] eqn:E.
  - destruct (last_write_Some _ _ _ E) as (item & _ & code & _ & Hmap & _).
    apply code_mapping_keys in Hmap. simpl in *. tauto.
  - apply main_base_lookup in Hk. simpl in *. tauto.
Qed.

(** X6: whatever the vendor sends, the result of [_get_main_data] has
    no key outside the nine the coordinator knows. *)
Theorem main_data_keys_bounded (w : world) (key : option string)
    (r : snapshot) (k : string) :
  _get_main_data w key = Ok r ->
  is_Some (r !! k) ->
  In k main_keys.
Proof. exact (main_keys_in w key r k). Qed.

Lemma main_data_keys_bounded_witness : In "resin_vol" main_keys.
Proof.
  apply (main_data_keys_bounded (Fixture.online "day") (Some "K1")
           (<["resin_vol" := VInt 18]>
              (main_base (JBool true) (JBool false) JNull))).
  - vm_compute. reflexivity.
  - vm_compute. eauto.
Defined.

(** X7: when several category items are renamed to the same key, the
    last one in iteration order decides the value. *)
Theorem last_category_item_wins (w : world) (key : option string)
    (rsp : response) (data : json) (cats : list (string * json))
    (r : snapshot) (l1 l2 : list json) (item : json) (k : string) (v : json) :
  summary_get w (key_text key) = Ok rsp ->
  response_json rsp = Ok data ->
  dict_get data "dataCategories" (JObj []) = Ok (JObj cats) ->
  _get_main_data w key = Ok r ->
  category_items cats = (l1 ++ item :: l2)%list ->
  renames item k v ->
  (forall item' v', In item' l2 -> ~ renames item' k v') ->
  r !! k = Some (VJson v).
Proof.
  intros Hrsp Hdata Hcats Hmain Hitems Hrenames Hlater.
  destruct (get_main_data_inv _ _ _ Hmain)
    as (rsp' & data' & d & online & standby & salt & cats' &
        Hrsp' & _ & Hdata' & _ & _ & _ & _ & Hcats' & ->).
  rewrite Hrsp in Hrsp'. injection Hrsp' as <-.
  rewrite Hdata in Hdata'. injection Hdata' as <-.
  rewrite Hcats in Hcats'. injection Hcats' as <-.
  rewrite fold_apply_write_lookup, Hitems, last_write_app.
  simpl.
  destruct (last_write k l2) as [v'|] eqn:E.
  - destruct (last_write_Some _ _ _ E) as (item' & Hin & Hr).
    exfalso. exact (Hlater item' v' Hin Hr).
  - apply item_write_renames in Hrenames. rewrite Hrenames.
    now rewrite String.eqb_refl.
Qed.

(** X8: [_get_main_data] returns only if every item of every
    list-valued category is a dict; a single other item makes the whole
    fetch raise, top-level fields included. *)
Theorem main_data_needs_dict_items (w : world) (key : option string)
    (rsp : response) (data : json) (cats : list (string * json)) :
  summary_get w (key_text key) = Ok rsp ->
  response_json rsp = Ok data ->
  dict_get data "dataCategories" (JObj []) = Ok (JObj cats) ->
  (is_ok (_get_main_data w key) = true ->
     Forall (fun item => exists ms, item = JObj ms) (category_items cats))
  /\ (forall item, In item (category_items cats) ->
        (forall ms, item <> JObj ms) ->
        is_ok (_get_main_data w key) = false).
Proof.
  intros Hrsp Hdata Hcats.
  assert (Hdicts : is_ok (_get_main_data w key) = true ->
    Forall (fun item => exists ms, item = JObj ms) (category_items cats)).
  { unfold _get_main_data, mbind, result_bind.
    rewrite Hrsp. destruct (negb (status_code rsp =? 200)); [discriminate|].
    rewrite Hdata.
    destruct (dict_get data "online" (JBool false)); [|discriminate].
    destruct (dict_get data "data" (JObj [])) as [d|]; [|discriminate].
    destruct (dict_get d "standBy" (JBool false)); [|discriminate].
    destruct (dict_get d "salt" JNull); [|discriminate].
    rewrite Hcats. simpl.
    destruct (for_each main_category cats _) as [r|] eqn:Eloop; [|discriminate].
    intros _. now apply for_each_main_category_dicts in Eloop. }
  split; [exact Hdicts|].
  intros item Hin Hnot.
  destruct (is_ok (_get_main_data w key)) eqn:Eok; [|reflexivity].
  specialize (Hdicts eq_refl). rewrite Forall_forall in Hdicts.
  destruct (Hdicts item (proj2 (list_elem_of_In _ _) Hin)) as [ms ->].
  exfalso. exact (Hnot ms eq_refl).
Qed.

Lemma last_category_item_wins_witness :
  (<["resin_vol" := VInt 20]> (main_base (JBool true) (JBool false) JNull)
     : snapshot) !! "resin_vol" = Some (VJson (JInt 20)).
Proof.
  apply (last_category_item_wins
           (MoreFixtures.with_summary MoreFixtures.summary_twice) (Some "K1")
           {| status_code := 200;
              response_json := Ok MoreFixtures.summary_twice |}
           MoreFixtures.summary_twice
           [ ("config", JArr [MoreFixtures.resin 18]);
             ("telemetry", JArr [MoreFixtures.resin 20]) ]
           _ [MoreFixtures.resin 18] [] (MoreFixtures.resin 20)).
  - reflexivity.
  - reflexivity.
  - reflexivity.
  - vm_compute. reflexivity.
  - reflexivity.
  - exists "resinVol". repeat split; try reflexivity. discriminate.
  - intros item' v' [].
Defined.

Lemma main_data_needs_dict_items_witness :
  is_ok (_get_main_data (MoreFixtures.with_summary MoreFixtures.summary_bad)
           (Some "K1")) = false.
Proof.
  destruct (main_data_needs_dict_items
              (MoreFixtures.with_summary MoreFixtures.summary_bad) (Some "K1")
              {| status_code := 200;
                 response_json := Ok MoreFixtures.summary_bad |}
              MoreFixtures.summary_bad
              [ ("config", JArr [MoreFixtures.resin 18; JInt 1]) ]
              eq_refl eq_refl eq_refl) as [_ Hbad].
  apply (Hbad (JInt 1)).
  - simpl. auto.
  - discriminate.
Defined.

(** X9: a summary without a [data] member and without
    [dataCategories] gives exactly three fields: [online] as sent (or
    [False] when missing), [standby] [False] and [salt] [None]. *)
Theorem main_data_defaults (w : world) (key : option string)
    (rsp : response) (ms : list (string * json)) :
  summary_get w (key_text key) = Ok rsp ->
  status_code rsp = 200 ->
  response_json rsp = Ok (JObj ms) ->
  assoc "data" ms = None ->
  assoc "dataCategories" ms = None ->
  _get_main_data w key =
    Ok (main_base (default (JBool false) (assoc "online" ms))
          (JBool false) JNull).
Proof.
  intros Hrsp Hstatus Hdata Hnodata Hnocats.
  unfold _get_main_data, mbind, result_bind.
  rewrite Hrsp, Hstatus, Hdata. simpl.
  rewrite Hnodata, Hnocats. reflexivity.
Qed.

Lemma main_data_defaults_witness :
  _get_main_data (MoreFixtures.with_summary MoreFixtures.summary_bare)
    (Some "K1")
  = Ok (main_base (JBool true) (JBool false) JNull).
Proof.
  apply (main_data_defaults
           (MoreFixtures.with_summary MoreFixtures.summary_bare) (Some "K1")
           {| status_code := 200;
              response_json := Ok MoreFixtures.summary_bare |}
           [ ("online", JBool true) ]); reflexivity.
Defined.

(** X10: no two vendor codes of the catalog share a canonical key, so
    the value found under the key of a code was sent under that very
    code. *)
Theorem catalog_value_keeps_its_code (w : world) (key : option string)
    (rsp : response) (data : json) (cats : list (string * json))
    (r : snapshot) (item : json) (code k : string) (v : json) :
  summary_get w (key_text key) = Ok rsp ->
  response_json rsp = Ok data ->
  dict_get data "dataCategories" (JObj []) = Ok (JObj cats) ->
  _get_main_data w key = Ok r ->
  In item (category_items cats) ->
  dict_get item "code" JNull = Ok (JStr code) ->
  attr_lookup code code_mapping = Some k ->
  dict_get item "value" JNull = Ok v ->
  v <> JNull ->
  exists item' v',
    In item' (category_items cats)
    /\ dict_get item' "code" JNull = Ok (JStr code)
    /\ dict_get item' "value" JNull = Ok v'
    /\ v' <> JNull
    /\ r !! k = Some (VJson v').
Proof.
  intros Hrsp Hdata Hcats Hmain Hin Hcode Hmap Hval Hnn.
  destruct (get_main_data_inv _ _ _ Hmain)
    as (rsp' & data' & d & online & standby & salt & cats' &
        Hrsp' & _ & Hdata' & _ & _ & _ & _ & Hcats' & ->).
  rewrite Hrsp in Hrsp'. injection Hrsp' as <-.
  rewrite Hdata in Hdata'. injection Hdata' as <-.
  rewrite Hcats in Hcats'. injection Hcats' as <-.
  assert (Hr : renames item k v) by (exists code; auto).
  destruct (last_write k (category_items cats)) as [v'|] eqn:E.
  - destruct (last_write_Some _ _ _ E)
      as (item' & Hin' & code' & Hcode' & Hmap' & Hval' & Hnn').
    rewrite (code_mapping_injective _ _ _ Hmap' Hmap) in Hcode'.
    exists item', v'. repeat split; try assumption.
    rewrite fold_apply_write_lookup. now rewrite E.
  - exfalso. exact (last_write_None _ _ E item v Hin Hr).
Qed.

Lemma catalog_value_keeps_its_code_witness :
  exists item' v',
    In item' [MoreFixtures.resin 18; MoreFixtures.resin 20]
    /\ dict_get item' "code" JNull = Ok (JStr "resinVol")
    /\ dict_get item' "value" JNull = Ok v'
    /\ v' <> JNull
    /\ (<["resin_vol" := VInt 20]>
          (main_base (JBool true) (JBool false) JNull) : snapshot)
         !! "resin_vol" = Some (VJson v').
Proof.
  apply (catalog_value_keeps_its_code
           (MoreFixtures.with_summary MoreFixtures.summary_twice) (Some "K1")
           {| status_code := 200;
              response_json := Ok MoreFixtures.summary_twice |}
           MoreFixtures.summary_twice
           [ ("config", JArr [MoreFixtures.resin 18]);
             ("telemetry", JArr [MoreFixtures.resin 20]) ]
           _ (MoreFixtures.resin 18) "resinVol" "resin_vol" (JInt 18)).
  - reflexivity.
  - reflexivity.
  - reflexivity.
  - vm_compute. reflexivity.
  - simpl. auto.
  - reflexivity.
  - reflexivity.
  - reflexivity.
  - discriminate.
Defined.

(** ** More on [_get_consumption_data] *)

Section ConsumptionShape.
Context `{PyLib}.

Lemma try_formats_first s pre fmt post naive_dt :
  (forall g, In g pre -> format_fails s g) ->
  strptime s fmt = Some naive_dt ->
  try_formats s (pre ++ fmt :: post) =
    match as_utc naive_dt with
    | Converted utc => VTime utc
    | ConvValueError => try_formats s post
    | ConvOtherError => VNone
    end.
Proof.
  intros Hpre Hfmt. induction pre as [|g pre IH]; simpl.
  - now rewrite Hfmt.
  - pose proof (Hpre g (or_introl eq_refl)) as Hg. unfold format_fails in Hg.
    destruct (strptime s g) as [n|].
    + rewrite Hg. apply IH. intros g' Hin. apply Hpre. now right.
    + apply IH. intros g' Hin. apply Hpre. now right.
Qed.

(** X11: the formats are tried in the order of the list and the first
    one that [strptime] accepts and [as_utc] converts gives the value,
    whatever the later formats would give. *)
Theorem first_parsing_format_wins (s : string) (pre post : list string)
    (fmt : string) (naive_dt : naive_datetime) (utc : Z) :
  formats = (pre ++ fmt :: post)%list ->
  (forall g, In g pre -> format_fails s g) ->
  strptime s fmt = Some naive_dt ->
  as_utc naive_dt = Converted utc ->
  parse_refresh_date (JStr s) = VTime utc.
Proof.
  intros Hsplit Hpre Hfmt Hutc. unfold parse_refresh_date.
  rewrite Hsplit, (try_formats_first _ _ _ _ _ Hpre Hfmt). now rewrite Hutc.
Qed.

(** X12: when [as_utc] fails on an accepted format with anything but a
    [ValueError], the search stops there and [refresh_date] is [None],
    even if a later format would have parsed. *)
Theorem conversion_error_stops_search (s : string) (pre post : list string)
    (fmt : string) (naive_dt : naive_datetime) :
  formats = (pre ++ fmt :: post)%list ->
  (forall g, In g pre -> format_fails s g) ->
  strptime s fmt = Some naive_dt ->
  as_utc naive_dt = ConvOtherError ->
  parse_refresh_date (JStr s) = VNone.
Proof.
  intros Hsplit Hpre Hfmt Hutc. unfold parse_refresh_date.
  rewrite Hsplit, (try_formats_first _ _ _ _ _ Hpre Hfmt). now rewrite Hutc.
Qed.

Lemma parse_dataset_inv dataset_json salt_value r :
  parse_dataset dataset_json salt_value = Ok r ->
  exists salt refresh lines,
    int_of_str salt_value = Ok salt
    /\ dict_get dataset_json "refreshDate" JNull = Ok refresh
    /\ dict_get dataset_json "lines" (JArr []) = Ok lines
    /\ ((r = with_refresh refresh {[ "salt_per_regen" := VInt salt ]}
         /\ (truthy lines = false
             \/ exists first n, subscript lines 0 = Ok first
                                /\ py_len first = Ok n /\ n < 5))
        \/ exists first n f0 f1 f2 f3 f4 regen water,
             truthy lines = true
             /\ subscript lines 0 = Ok first
             /\ py_len first = Ok n /\ 5 <= n
             /\ subscript first 0 = Ok f0 /\ subscript first 1 = Ok f1
             /\ subscript first 2 = Ok f2 /\ subscript first 3 = Ok f3
             /\ subscript first 4 = Ok f4
             /\ int_or_zero f1 = Ok regen /\ int_or_zero f3 = Ok water
             /\ r = with_line f0 f2 f4 regen water salt
                      (with_refresh refresh {[ "salt_per_regen" := VInt salt ]})).
Proof.
  unfold parse_dataset, refresh_step, lines_step, mbind, result_bind.
  destruct (int_of_str salt_value) as [salt|]; [|discriminate].
  destruct (dict_get dataset_json "refreshDate" JNull) as [refresh|];
    [|discriminate].
  intros Hr. exists salt, refresh.
  assert (Hbase : (if truthy refresh
                   then Ok (<["refresh_date" := parse_refresh_date refresh]>
                              ({[ "salt_per_regen" := VInt salt ]} : snapshot))
                   else Ok {[ "salt_per_regen" := VInt salt ]})
                  = Ok (with_refresh refresh {[ "salt_per_regen" := VInt salt ]})).
  { unfold with_refresh. destruct (truthy refresh); reflexivity. }
  rewrite Hbase in Hr. clear Hbase.
  set (base := with_refresh refresh {[ "salt_per_regen" := VInt salt ]}) in *.
  destruct (dict_get dataset_json "lines" (JArr [])) as [lines|];
    [|discriminate].
  exists lines. repeat split.
  destruct (truthy lines) eqn:Etruthy; [|left; injection Hr as <-; auto].
  destruct (subscript lines 0) as [first|] eqn:Efirst; [|discriminate].
  unfold parse_first_line, mbind, result_bind in Hr.
  destruct (py_len first) as [n|] eqn:Elen; [|discriminate].
  destruct (Z.leb_spec 5 n) as [Hn|Hn].
  2:{ left. injection Hr as <-. split; [reflexivity|]. right. eauto. }
  destruct (subscript first 0) as [f0|] eqn:E0; [|discriminate].
  destruct (subscript first 1) as [f1|] eqn:E1; [|discriminate].
  destruct (int_or_zero f1) as [regen|] eqn:Eregen; [|discriminate].
  destruct (subscript first 2) as [f2|] eqn:E2; [|discriminate].
  destruct (subscript first 3) as [f3|] eqn:E3; [|discriminate].
  destruct (int_or_zero f3) as [water|] eqn:Ewater; [|discriminate].
  destruct (subscript first 4) as [f4|] eqn:E4; [|discriminate].
  injection Hr as <-. right.
  exists first, n, f0, f1, f2, f3, f4, regen, water. repeat split; auto.
Qed.

Lemma consumption_data_inv w key r :
  _get_consumption_data w key = Ok r ->
  r = ∅ \/ exists dataset_json salt_value,
             parse_dataset dataset_json salt_value = Ok r.
Proof.
  unfold _get_consumption_data, mbind, result_bind.
  destruct (fetch_graph w key) as [[graph_div|]|]; try discriminate.
  - unfold parse_graph, mbind, result_bind.
    destruct (json_loads _) as [dataset_json|]; [|discriminate].
    intros Hr. right. eauto.
  - intros [= <-]. now left.
Qed.

End ConsumptionShape.

Section ConsumptionFields.
Context `{PyLib}.

Lemma with_line_lookup f0 f2 f4 regen water salt (res : snapshot) k :
  with_line f0 f2 f4 regen water salt res !! k =
    if String.eqb k "last_update" then Some (parse_last_update f0)
    else if String.eqb k "salt_consumption" then Some (VInt (regen * salt))
    else if String.eqb k "salt_alarm" then Some (VJson (bool_or_false f4))
    else if String.eqb k "water_consumption" then Some (VInt water)
    else if String.eqb k "power_outage" then Some (VJson (bool_or_false f2))
    else if String.eqb k "regen_count" then Some (VInt regen)
    else if String.eqb k "last_date" then Some (VJson f0)
    else res !! k.
Proof.
  unfold with_line.
  repeat match goal with
         | |- context [String.eqb k ?s] =>
             destruct (String.eqb_spec k s) as [->|?];
             [rewrite lookup_insert_eq; reflexivity
             |rewrite lookup_insert_ne by congruence]
         end.
  reflexivity.
Qed.

Lemma with_refresh_lookup refresh salt k :
  with_refresh refresh {[ "salt_per_regen" := VInt salt ]} !! k =
    if truthy refresh && String.eqb k "refresh_date"
    then Some (parse_refresh_date refresh)
    else if String.eqb k "salt_per_regen" then Some (VInt salt) else None.
Proof.
  unfold with_refresh. destruct (truthy refresh); simpl.
  - destruct (String.eqb_spec k "refresh_date") as [->|?].
    + apply lookup_insert_eq.
    + rewrite lookup_insert_ne by congruence.
      destruct (String.eqb_spec k "salt_per_regen") as [->|?].
      * apply lookup_singleton_eq.
      * now apply lookup_singleton_ne.
  - destruct (String.eqb_spec k "salt_per_regen") as [->|?].
    + apply lookup_singleton_eq.
    + now apply lookup_singleton_ne.
Qed.

Lemma try_formats_time s fmts : is_time_or_none (try_formats s fmts).
Proof.
  induction fmts as [|fmt fmts IH]; simpl; [now left|].
  destruct (strptime s fmt) as [n|]; [|assumption].
  destruct (as_utc n); [right; eauto|assumption|now left].
Qed.

Lemma parse_refresh_date_time j : is_time_or_none (parse_refresh_date j).
Proof.
  destruct j; try (now left). apply try_formats_time.
Qed.

Lemma parse_last_update_time j : is_time_or_none (parse_last_update j).
Proof.
  destruct j; simpl; try (now left).
  destruct (strptime s "%Y-%m-%d") as [n|]; [|now left].
  destruct (as_utc n); [right; eauto|now left|now left].
Qed.

Lemma bool_or_false_bool j : is_bool (VJson (bool_or_false j)).
Proof. destruct j; simpl; eexists; reflexivity. Qed.

(** The two shapes a returned consumption dict can have. *)
Lemma consumption_shape w key r :
  _get_consumption_data w key = Ok r ->
  r = ∅
  \/ (exists refresh salt,
        r = with_refresh refresh {[ "salt_per_regen" := VInt salt ]})
  \/ (exists refresh salt f0 f2 f4 regen water,
        r = with_line f0 f2 f4 regen water salt
              (with_refresh refresh {[ "salt_per_regen" := VInt salt ]})).
Proof.
  intros Hr. destruct (consumption_data_inv _ _ _ Hr) as [->|(d & sv & Hd)];
    [now left|].
  right.
  destruct (parse_dataset_inv _ _ _ Hd)
    as (salt & refresh & lines & _ & _ & _ & [[-> _]|Hfull]).
  - left. eauto.
  - right.
    destruct Hfull as (first & n & f0 & f1 & f2 & f3 & f4 & regen & water &
                       _ & _ & _ & _ & _ & _ & _ & _ & _ & _ & _ & ->).
    eauto 10.
Qed.

Ltac line_cases Hin :=
  simpl in Hin;
  repeat (destruct Hin as [<-|Hin]; [|]); try contradiction.

Lemma line_fields_together (w : world) (key : option string)
    (r : snapshot) (k k' : string) :
  _get_consumption_data w key = Ok r ->
  In k line_fields -> In k' line_fields ->
  is_Some (r !! k) -> is_Some (r !! k').
Proof.
  intros Hr Hk Hk'.
  destruct (consumption_shape _ _ _ Hr)
    as [->|[(refresh & salt & ->)|(refresh & salt & f0 & f2 & f4 & regen &
                                   water & ->)]].
  - rewrite lookup_empty. intros [? [=]].
  - rewrite with_refresh_lookup.
    line_cases Hk; rewrite andb_false_r; simpl; intros [? [=]].
  - intros _. rewrite with_line_lookup.
    line_cases Hk'; simpl; eauto.
Qed.

(** X13: the fields of the latest day are written together or not at
    all: if one of them is in the returned dict, all seven are. *)
Theorem line_fields_all_or_none (w : world) (key : option string)
    (r : snapshot) (k k' : string) :
  _get_consumption_data w key = Ok r ->
  In k line_fields -> In k' line_fields ->
  is_Some (r !! k) -> is_Some (r !! k').
Proof. exact (line_fields_together w key r k k'). Qed.

Lemma consumption_typed (w : world) (key : option string)
    (r : snapshot) :
  _get_consumption_data w key = Ok r -> typed r.
Proof.
  intros Hr k v.
  destruct (consumption_shape _ _ _ Hr)
    as [->|[(refresh & salt & ->)|(refresh & salt & f0 & f2 & f4 & regen &
                                   water & ->)]].
  - rewrite lookup_empty. discriminate.
  - rewrite with_refresh_lookup. intros Hv.
    repeat split; intros Hin; line_cases Hin; simpl in Hv;
      rewrite ?andb_false_r, ?andb_true_r in Hv;
      try discriminate;
      try (destruct (truthy refresh); [|discriminate]);
      injection Hv as <-;
      first [eexists; reflexivity | apply parse_refresh_date_time].
  - rewrite with_line_lookup. intros Hv.
    repeat split; intros Hin; line_cases Hin; simpl in Hv;
      try (rewrite with_refresh_lookup in Hv; simpl in Hv;
           rewrite ?andb_false_r, ?andb_true_r in Hv;
           try (destruct (truthy refresh); [|discriminate]));
      try discriminate;
      injection Hv as <-;
      first [eexists; reflexivity | apply parse_refresh_date_time
            | apply parse_last_update_time | apply bool_or_false_bool].
Qed.

(** X14: in every returned consumption dict the counters are integers,
    the two alarms are booleans, and the two dates are instants or
    [None], whatever JSON the chart carried. *)
Theorem consumption_fields_typed (w : world) (key : option string)
    (r : snapshot) :
  _get_consumption_data w key = Ok r -> typed r.
Proof. exact (consumption_typed w key r). Qed.

(** X15: a returned dict is empty or carries [salt_per_regen]; and when
    it carries the regeneration count, [salt_consumption] is that count
    times [salt_per_regen]. *)
Theorem salt_consumption_is_product (w : world) (key : option string)
    (r : snapshot) :
  _get_consumption_data w key = Ok r ->
  (r = ∅ \/ exists salt, r !! "salt_per_regen" = Some (VInt salt))
  /\ (forall regen, r !! "regen_count" = Some (VInt regen) ->
        exists salt,
          r !! "salt_per_regen" = Some (VInt salt)
          /\ r !! "salt_consumption" = Some (VInt (regen * salt))).
Proof.
  intros Hr.
  destruct (consumption_shape _ _ _ Hr)
    as [->|[(refresh & salt & ->)|(refresh & salt & f0 & f2 & f4 & regen &
                                   water & ->)]].
  - split; [now left|]. intros regen. rewrite lookup_empty. discriminate.
  - split.
    + right. exists salt. rewrite with_refresh_lookup.
      now rewrite andb_false_r.
    + intros regen. rewrite with_refresh_lookup, andb_false_r. discriminate.
  - split.
    + right. exists salt. rewrite with_line_lookup. simpl.
      rewrite with_refresh_lookup. now rewrite andb_false_r.
    + intros regen'. rewrite !with_line_lookup. simpl. intros [= <-].
      exists salt. split; [|reflexivity].
      rewrite with_refresh_lookup. now rewrite andb_false_r.
Qed.

Lemma consumption_keys_in w key r k :
  _get_consumption_data w key = Ok r ->
  is_Some (r !! k) -> In k consumption_keys.
Proof.
  intros Hr.
  assert (Hbase : forall refresh salt,
    is_Some (with_refresh refresh {[ "salt_per_regen" := VInt salt ]} !! k) ->
    In k consumption_keys).
  { intros refresh salt. rewrite with_refresh_lookup.
    destruct (String.eqb_spec k "refresh_date") as [->|?];
      [intros _; simpl; tauto|].
    rewrite andb_false_r.
    destruct (String.eqb_spec k "salt_per_regen") as [->|?];
      [intros _; simpl; tauto|].
    intros [? [=]]. }
  destruct (consumption_shape _ _ _ Hr)
    as [->|[(refresh & salt & ->)|(refresh & salt & f0 & f2 & f4 & regen &
                                   water & ->)]].
  - rewrite lookup_empty. intros [? [=]].
  - apply Hbase.
  - rewrite with_line_lookup.
    repeat match goal with
           | |- context [String.eqb k ?s] =>
               destruct (String.eqb_spec k s) as [->|?];
               [intros _; simpl; tauto|]
           end.
    apply Hbase.
Qed.

End ConsumptionFields.

Lemma first_parsing_format_wins_witness :
  parse_refresh_date (H := Fixture.lib) (JStr "2025-11-27")
    = VTime 1764201600000000.
Proof.
  apply (first_parsing_format_wins (H := Fixture.lib) "2025-11-27"
           [ "%Y-%m-%dT%H:%M:%S.%f"; "%Y-%m-%d %H:%M:%S"; "%Y-%m-%dT%H:%M:%S" ]
           [] "%Y-%m-%d"
           {| dt_year := 2025; dt_month := 11; dt_day := 27; dt_hour := 0;
              dt_minute := 0; dt_second := 0; dt_microsecond := 0 |}).
  - reflexivity.
  - intros g Hin. simpl in Hin.
    destruct Hin as [<-|[<-|[<-|[]]]]; exact I.
  - reflexivity.
  - reflexivity.
Defined.

Lemma conversion_error_stops_search_witness :
  parse_refresh_date (H := MoreFixtures.overflowing) (JStr "2025-11-27")
    = VNone.
Proof.
  apply (conversion_error_stops_search (H := MoreFixtures.overflowing)
           "2025-11-27" []
           [ "%Y-%m-%d %H:%M:%S"; "%Y-%m-%dT%H:%M:%S"; "%Y-%m-%d" ]
           "%Y-%m-%dT%H:%M:%S.%f"
           {| dt_year := 1; dt_month := 1; dt_day := 1; dt_hour := 0;
              dt_minute := 0; dt_second := 0; dt_microsecond := 0 |}).
  - reflexivity.
  - intros g [].
  - reflexivity.
  - reflexivity.
Defined.

Lemma line_fields_all_or_none_witness :
  is_Some (Fixture.day_fields !! "last_update").
Proof.
  apply (line_fields_all_or_none (H := Fixture.lib) (Fixture.online "day")
           (Some "K1") Fixture.day_fields "water_consumption" "last_update").
  - vm_compute. reflexivity.
  - simpl. tauto.
  - simpl. tauto.
  - vm_compute. eauto.
Defined.

Lemma consumption_fields_typed_witness : typed Fixture.day_fields.
Proof.
  apply (consumption_fields_typed (H := Fixture.lib) (Fixture.online "day")
           (Some "K1")).
  vm_compute. reflexivity.
Defined.

Lemma salt_consumption_is_product_witness :
  exists salt,
    Fixture.day_fields !! "salt_per_regen" = Some (VInt salt)
    /\ Fixture.day_fields !! "salt_consumption" = Some (VInt (2 * salt)).
Proof.
  destruct (salt_consumption_is_product (H := Fixture.lib)
              (Fixture.online "day") (Some "K1") Fixture.day_fields)
    as [_ Hproduct].
  - vm_compute. reflexivity.
  - apply Hproduct. vm_compute. reflexivity.
Defined.

Section ConsumptionEdges.
Context `{PyLib}.

(** X16: the two extractors never write the same key, so the order in
    which their results are merged into the snapshot does not matter. *)
Theorem extractors_write_disjoint_keys (w w' : world)
    (key key' : option string) (m cd : snapshot) :
  _get_main_data w key = Ok m ->
  _get_consumption_data w' key' = Ok cd ->
  (forall k, is_Some (m !! k) -> cd !! k = None)
  /\ (forall d, dict_update (dict_update d m) cd =
                dict_update (dict_update d cd) m).
Proof.
  intros Hm Hcd.
  assert (Hdisj : forall k, is_Some (m !! k) -> cd !! k = None).
  { intros k Hk. apply (main_keys_in _ _ _ _ Hm) in Hk.
    destruct (cd !! k) as [v|] eqn:E; [|reflexivity].
    assert (Hin : In k consumption_keys)
      by (apply (consumption_keys_in _ _ _ _ Hcd); eauto).
    exfalso. simpl in Hk, Hin.
    repeat (destruct Hk as [<-|Hk];
            [intuition discriminate|]).
    contradiction. }
  split; [exact Hdisj|].
  intros d. apply map_eq. intros k. rewrite !dict_update_lookup.
  destruct (m !! k) as [x|] eqn:Em; [|reflexivity].
  now rewrite (Hdisj k) by eauto.
Qed.

(** X17: a first line with fewer than five positions is ignored as a
    whole: the result is the one of the same dataset without [lines]. *)
Theorem short_first_line_ignored (dataset_json lines first : json)
    (salt_value : string) (n : Z) :
  dict_get dataset_json "lines" (JArr []) = Ok lines ->
  truthy lines = true ->
  subscript lines 0 = Ok first ->
  py_len first = Ok n ->
  n < 5 ->
  parse_dataset dataset_json salt_value =
  parse_dataset (without_member "lines" dataset_json) salt_value.
Proof.
  intros Hlines Htruthy Hfirst Hlen Hn.
  unfold parse_dataset, refresh_step, lines_step, mbind, result_bind.
  destruct (int_of_str salt_value) as [salt|]; [|reflexivity].
  rewrite dict_get_without_other by discriminate.
  destruct (dict_get dataset_json "refreshDate" JNull) as [refresh|];
    [|reflexivity].
  rewrite (dict_get_without_same _ _ _ _ Hlines), Hlines, Htruthy, Hfirst.
  unfold parse_first_line, mbind, result_bind. rewrite Hlen.
  destruct (Z.leb_spec 5 n); [lia|].
  destruct (truthy refresh); reflexivity.
Qed.

End ConsumptionEdges.

Lemma extractors_write_disjoint_keys_witness :
  Fixture.day_fields !! "salt" = None.
Proof.
  destruct (extractors_write_disjoint_keys (H := Fixture.lib)
              (Fixture.online "day") (Fixture.online "day")
              (Some "K1") (Some "K1")
              (<["resin_vol" := VInt 18]>
                 (main_base (JBool true) (JBool false) JNull))
              Fixture.day_fields) as [Hdisj _].
  - vm_compute. reflexivity.
  - vm_compute. reflexivity.
  - apply Hdisj. vm_compute. eauto.
Defined.

Lemma short_first_line_ignored_witness :
  parse_dataset (H := Fixture.lib)
    (JObj [("lines", JArr [JArr [JStr "2025-11-27"; JInt 2]])]) "120"
  = parse_dataset (H := Fixture.lib) (JObj []) "120".
Proof.
  apply (short_first_line_ignored (H := Fixture.lib)
           (JObj [("lines", JArr [JArr [JStr "2025-11-27"; JInt 2]])])
           (JArr [JArr [JStr "2025-11-27"; JInt 2]])
           (JArr [JStr "2025-11-27"; JInt 2]) "120" 2).
  - reflexivity.
  - reflexivity.
  - reflexivity.
  - reflexivity.
  - lia.
Defined.

(** ** The coordinator between cycles *)

Lemma three_keys (d : snapshot) (k1 k2 k3 : string) :
  k1 <> k2 -> k1 <> k3 -> k2 <> k3 ->
  is_Some (d !! k1) -> is_Some (d !! k2) -> is_Some (d !! k3) ->
  (3 <= size d)%nat.
Proof.
  intros H12 H13 H23 [v1 E1] [v2 E2] [v3 E3].
  rewrite <- (insert_delete_id d k1 v1) by assumption.
  rewrite map_size_insert_None by apply lookup_delete_eq.
  assert (E2' : delete k1 d !! k2 = Some v2) by now rewrite lookup_delete_ne.
  assert (E3' : delete k1 d !! k3 = Some v3) by now rewrite lookup_delete_ne.
  rewrite <- (insert_delete_id (delete k1 d) k2 v2) by assumption.
  rewrite map_size_insert_None by apply lookup_delete_eq.
  assert (E3'' : delete k2 (delete k1 d) !! k3 = Some v3)
    by now rewrite lookup_delete_ne.
  rewrite <- (insert_delete_id (delete k2 (delete k1 d)) k3 v3) by assumption.
  rewrite map_size_insert_None by apply lookup_delete_eq.
  lia.
Qed.

Lemma typed_empty : typed ∅.
Proof. intros k v. rewrite lookup_empty. discriminate. Qed.

Lemma typed_update d other :
  typed d -> typed other -> typed (dict_update d other).
Proof.
  intros Hd Ho k v. rewrite dict_update_lookup.
  destruct (other !! k) as [x|] eqn:E.
  - intros [= <-]. now apply (Ho k).
  - apply Hd.
Qed.

Lemma typed_water_int d : typed d -> water_int d.
Proof.
  intros Hd v Hv. apply (Hd _ _ Hv). simpl. tauto.
Qed.

Lemma typed_insert_increment d n :
  typed d -> typed (<["water_increment" := VInt n]> d).
Proof.
  intros Hd k v. destruct (String.eqb_spec k "water_increment") as [->|Hne].
  - rewrite lookup_insert_eq. intros [= <-].
    repeat split; intros Hin; simpl in Hin;
      try (exists n; reflexivity); intuition discriminate.
  - rewrite lookup_insert_ne by congruence. apply Hd.
Qed.

Lemma typed_main w key m : _get_main_data w key = Ok m -> typed m.
Proof.
  intros Hm k v Hv.
  assert (Hk : In k main_keys) by (apply (main_keys_in _ _ _ _ Hm); eauto).
  simpl in Hk.
  repeat split; intros Hin; simpl in Hin; exfalso;
    repeat (destruct Hk as [<-|Hk]; [intuition discriminate|]);
    contradiction.
Qed.

Section Invariant.
Context `{PyLib} `{Const}.

Lemma async_refresh_unfold entry w c :
  async_refresh entry w c =
    match ensure_auth entry w c with
    | (c1, Raise e, _) => fail_update (on_error c1 e).1
    | (c1, Ok _, _) =>
        match merge entry w c1 with
        | (c3, Raise e, _) => fail_update (on_error c3 e).1
        | (c3, Ok d, _) =>
            if (size d <? 3)%nat
            then fail_update
                   (on_error c3 (UpdateFailed "Insufficient data received")).1
            else publish d c3
        end
    end.
Proof.
  unfold async_refresh, _async_update_data, try_body.
  destruct (ensure_auth entry w c) as [[c1 [u|e]] jobs1]; [|reflexivity].
  destruct (merge entry w c1) as [[c3 [d|e]] jobs2]; [|reflexivity].
  simpl. unfold sufficiency. destruct (size d <? 3)%nat; reflexivity.
Qed.

Lemma merge_unfold entry w c :
  exists c2 jobs,
    merge entry w c =
      (water_stage c2
         (dict_update (previous_data c) (fetched_updates entry w c)), jobs)
    /\ data c2 = data c
    /\ receipt_line_key c2 = receipt_line_key c
    /\ _last_water_consumption c2 = _last_water_consumption c.
Proof.
  unfold merge.
  destruct (main_stage entry w c (previous_data c)) as [[c2 d1] jobs] eqn:Emain.
  rewrite (stages_update _ _ _ _ _ _ _ Emain).
  destruct (main_stage_state _ _ _ _ _ _ _ Emain) as (? & _ & ? & ?).
  exists c2, (jobs ++ [GetConsumptionData])%list. auto.
Qed.

Lemma fetched_typed entry w c : typed (fetched_updates entry w c).
Proof.
  unfold fetched_updates, main_stage, consumption_stage.
  destruct (main_due entry w c);
    [destruct (_get_main_data w (receipt_line_key c)) as [m|] eqn:Em|];
    simpl;
    destruct (_get_consumption_data w (receipt_line_key c)) as [cd|] eqn:Ecd;
    repeat apply typed_update;
    try apply typed_empty;
    try (apply (typed_main _ _ _ Em));
    try (apply (consumption_typed _ _ _ Ecd)).
Qed.

Lemma fetched_parts entry w c :
  exists m cd : snapshot,
    fetched_updates entry w c = dict_update (dict_update ∅ m) cd
    /\ (m = ∅ \/ _get_main_data w (receipt_line_key c) = Ok m)
    /\ (cd = ∅ \/ _get_consumption_data w (receipt_line_key c) = Ok cd).
Proof.
  assert (Hid : forall d : snapshot, dict_update d ∅ = d)
    by (intros d; unfold dict_update; apply (left_id_L ∅ (∪))).
  unfold fetched_updates, main_stage, consumption_stage.
  destruct (main_due entry w c);
    [destruct (_get_main_data w (receipt_line_key c)) as [m|] eqn:Em|];
    simpl;
    destruct (_get_consumption_data w (receipt_line_key c)) as [cd|] eqn:Ecd.
  - exists m, cd. auto.
  - exists m, ∅. rewrite Hid. auto.
  - exists ∅, cd. rewrite Hid. auto.
  - exists ∅, ∅. rewrite !Hid. auto.
  - exists ∅, cd. rewrite Hid. auto.
  - exists ∅, ∅. rewrite !Hid. auto.
Qed.

(** Where the fetched updates carry a water reading they carry the rest
    of the line. *)
Lemma fetched_water_line entry w c :
  is_Some (fetched_updates entry w c !! "water_consumption") ->
  is_Some (fetched_updates entry w c !! "last_date")
  /\ is_Some (fetched_updates entry w c !! "regen_count").
Proof.
  destruct (fetched_parts entry w c) as (m & cd & -> & Hm & Hcd).
  rewrite !dict_update_lookup, !lookup_empty.
  assert (Hnone : m !! "water_consumption" = None).
  { destruct Hm as [->|Hm]; [apply lookup_empty|].
    apply (main_data_no_water _ _ _ _ Hm). auto. }
  rewrite Hnone.
  destruct (cd !! "water_consumption") eqn:E; [|intros [? [=]]].
  intros _.
  destruct Hcd as [->|Hcd]; [rewrite lookup_empty in E; discriminate|].
  assert (Hk : forall k, In k line_fields -> is_Some (cd !! k)).
  { intros k Hk.
    apply (line_fields_together _ _ _ "water_consumption" k Hcd);
      simpl; eauto; tauto. }
  destruct (Hk "last_date") as [x ->]; [simpl; tauto|].
  destruct (Hk "regen_count") as [y ->]; [simpl; tauto|]. eauto.
Qed.

Lemma consistent_init : consistent init.
Proof. split; [discriminate|reflexivity]. Qed.

Lemma token_held_key c :
  token_held c = true -> receipt_line_key c <> Some "".
Proof.
  unfold token_held. destruct (receipt_line_key c) as [k|]; [|discriminate].
  intros Hk [= ->]. discriminate.
Qed.

Lemma on_error_key c err :
  receipt_line_key c <> Some "" ->
  receipt_line_key (fail_update (on_error c err).1) <> Some "".
Proof.
  intros Hc. unfold on_error. simpl.
  destruct (auth_marker err); simpl; [discriminate|assumption].
Qed.

Lemma consistent_ext c c' :
  receipt_line_key c' <> Some "" ->
  data c' = data c ->
  _last_water_consumption c' = _last_water_consumption c ->
  consistent c -> consistent c'.
Proof.
  intros Hkey Hdata Hlast [_ Hc]. split; [assumption|].
  now rewrite Hdata, Hlast.
Qed.

Lemma failed_state c err :
  data (fail_update (on_error c err).1) = data c
  /\ _last_water_consumption (fail_update (on_error c err).1) =
       _last_water_consumption c.
Proof. unfold on_error. simpl. destruct (auth_marker err); auto. Qed.

Lemma consistent_step entry w c :
  consistent c -> consistent (async_refresh entry w c).
Proof.
  intros [Hkey Hdata]. rewrite async_refresh_unfold.
  destruct (ensure_auth entry w c) as [[c1 auth] jobs1] eqn:Eauth.
  destruct (ensure_auth_state _ _ _ _ _ _ Eauth)
    as (Hdata1 & _ & _ & Hlast1 & Hauth).
  destruct auth as [u|e].
  2:{ destruct Hauth as [-> _]. destruct (failed_state c e) as [Hd Hl].
      apply (consistent_ext c); try assumption;
        [now apply on_error_key|now split]. }
  assert (Hprev : previous_data c1 = previous_data c)
    by (unfold previous_data; now rewrite Hdata1).
  assert (Htyped : typed (previous_data c)).
  { unfold previous_data. destruct (data c) as [d|]; simpl;
      [apply Hdata|apply typed_empty]. }
  assert (Hprev_wc : match previous_data c !! "water_consumption" with
                     | Some v => v = VInt (_last_water_consumption c)
                                 /\ (3 <= size (previous_data c))%nat
                     | None => _last_water_consumption c = 0
                     end).
  { unfold previous_data. destruct (data c) as [d|]; simpl.
    - destruct Hdata as (Hsize & _ & Hwc).
      destruct (d !! "water_consumption"); [split; tauto|assumption].
    - rewrite lookup_empty. assumption. }
  destruct (merge_unfold entry w c1) as (c2 & jobs & -> & Hdata2 & Hkey2 & Hlast2).
  rewrite Hprev.
  set (d2 := dict_update (previous_data c) (fetched_updates entry w c1)).
  assert (Htyped2 : typed d2)
    by (apply typed_update; [assumption|apply fetched_typed]).
  assert (Hkey1 : receipt_line_key c2 <> Some "")
    by (rewrite Hkey2; now apply token_held_key).
  unfold water_stage.
  destruct (d2 !! "water_consumption") as [v|] eqn:Ewc.
  - destruct (typed_water_int _ Htyped2 v Ewc) as [cur ->]. simpl.
    assert (Hsize : (3 <= size d2)%nat).
    { subst d2. rewrite dict_update_lookup in Ewc.
      destruct (fetched_updates entry w c1 !! "water_consumption") eqn:Ef.
      - destruct (fetched_water_line entry w c1) as [[x Hx] [y Hy]];
          [rewrite Ef; eauto|].
        apply (three_keys _ "water_consumption" "last_date" "regen_count");
          try discriminate; rewrite dict_update_lookup;
          rewrite ?Ef, ?Hx, ?Hy; eauto.
      - rewrite Ewc in Hprev_wc. destruct Hprev_wc as [_ Hs].
        etransitivity; [exact Hs|apply dict_update_size]. }
    assert (Hsize3 : (size (<["water_increment" :=
                         VInt (compute_increment (_last_water_consumption c2) cur).1]> d2)
                      <? 3)%nat = false).
    { apply Nat.ltb_ge. etransitivity; [exact Hsize|].
      destruct (d2 !! "water_increment") eqn:E.
      - erewrite map_size_insert_Some; eauto.
      - rewrite map_size_insert_None; auto. }
    simpl in Hsize3. rewrite Hsize3.
    split; [exact Hkey1|]. simpl. split; [|split].
    + apply Nat.ltb_ge. exact Hsize3.
    + now apply typed_insert_increment.
    + rewrite lookup_insert_ne by discriminate. rewrite Ewc.
      split; [reflexivity|]. rewrite lookup_insert_eq. eauto.
  - assert (Hzero : _last_water_consumption c = 0).
    { subst d2. rewrite dict_update_lookup in Ewc.
      destruct (fetched_updates entry w c1 !! "water_consumption");
        [discriminate|]. now rewrite Ewc in Hprev_wc. }
    destruct (size d2 <? 3)%nat eqn:Esize.
    + destruct (failed_state c2 (UpdateFailed "Insufficient data received"))
        as [Hd Hl].
      apply (consistent_ext c); try congruence;
        [now apply on_error_key|now split].
    + split; [exact Hkey1|]. simpl. split; [|split].
      * now apply Nat.ltb_ge.
      * exact Htyped2.
      * rewrite Ewc. congruence.
Qed.

Lemma consistent_run entry ws c :
  consistent c -> consistent (run_cycles entry ws c).
Proof.
  revert c. induction ws as [|w ws IH]; intros c Hc; simpl; [assumption|].
  apply IH. now apply consistent_step.
Qed.

(** X18: from [__init__] on, whatever the site answers, between two
    cycles the key is [None] or not empty, a published snapshot has at
    least three fields with the coordinator's own fields of the type it
    gives them, and [_last_water_consumption] is the published
    [water_consumption] (0 when none is published), which comes with a
    [water_increment]. *)
Theorem coordinator_stays_consistent (entry : config_entry)
    (ws : list world) :
  consistent (run_cycles entry ws init).
Proof. apply consistent_run. apply consistent_init. Qed.

End Invariant.

Section CycleProperties.
Context `{PyLib} `{Const}.

Lemma merge_jobs entry w c :
  (merge entry w c).2 = [GetConsumptionData]
  \/ (merge entry w c).2 = [GetMainData; GetConsumptionData].
Proof.
  unfold merge, main_stage.
  destruct (main_due entry w c);
    [destruct (_get_main_data w (receipt_line_key c))|]; simpl; auto.
Qed.

Lemma held_token_step entry w c :
  token_held c = true ->
  water_int (previous_data c) ->
  receipt_line_key (async_refresh entry w c) = receipt_line_key c
  /\ ~ In Authenticate (run_jobs (_async_update_data entry w c)).
Proof.
  intros Hheld Hint. split.
  - rewrite async_refresh_unfold, (ensure_auth_held _ _ _ Hheld).
    destruct (merge_total entry w c Hint) as (c3 & d & jobs & Hmerge).
    rewrite Hmerge.
    destruct (merge_state _ _ _ _ _ _ Hmerge) as (_ & _ & Hkey).
    destruct (size d <? 3)%nat; exact Hkey.
  - rewrite update_jobs. unfold try_body.
    rewrite (ensure_auth_held _ _ _ Hheld).
    pose proof (merge_jobs entry w c) as Hjobs.
    destruct (merge entry w c) as [[c3 merged] jobs2]. simpl in *.
    destruct Hjobs as [-> | ->]; simpl; intuition discriminate.
Qed.

(** X19: once a key is held it is never cleared and [_authenticate] is
    never run again, whatever the site answers in any later cycle: the
    failures of the two fetches are caught before the handler that looks
    for 401 and 403. *)
Theorem held_key_is_never_renewed (entry : config_entry) (ws : list world)
    (c : coordinator) :
  token_held c = true ->
  water_int (previous_data c) ->
  receipt_line_key (run_cycles entry ws c) = receipt_line_key c
  /\ forall w,
       ~ In Authenticate
           (run_jobs (_async_update_data entry w (run_cycles entry ws c))).
Proof.
  revert c. induction ws as [|w ws IH]; intros c Hheld Hint; simpl.
  - split; [reflexivity|]. intros w. now apply held_token_step.
  - destruct (held_token_step entry w c Hheld Hint) as [Hkey _].
    destruct (IH (async_refresh entry w c)) as [Hkeys Hjobs].
    + unfold token_held in *. now rewrite Hkey.
    + now apply cycle_keeps_water_int.
    + split; [congruence|exact Hjobs].
Qed.

(** X20: in a state reached from [__init__], a cycle past
    authentication that fetches no new water reading while the
    published snapshot has one succeeds and publishes the same reading
    with [water_increment = 0]: an old reading is never counted twice. *)
Theorem stale_reading_counts_nothing (entry : config_entry) (w : world)
    (c c1 : coordinator) (jobs1 : list job) (v : value) :
  consistent c ->
  ensure_auth entry w c = (c1, Ok (), jobs1) ->
  fetched_updates entry w c1 !! "water_consumption" = None ->
  previous_data c !! "water_consumption" = Some v ->
  exists d,
    run_result (_async_update_data entry w c) = Ok d
    /\ d !! "water_consumption" = Some v
    /\ d !! "water_increment" = Some (VInt 0).
Proof.
  intros [_ Hc] Hauth Hfetched Hprev.
  destruct (ensure_auth_state _ _ _ _ _ _ Hauth) as (Hdata1 & _ & _ & Hlast1 & _).
  assert (Hp1 : previous_data c1 = previous_data c)
    by (unfold previous_data; now rewrite Hdata1).
  assert (Hv : v = VInt (_last_water_consumption c)
               /\ (3 <= size (previous_data c))%nat).
  { unfold previous_data in *. destruct (data c) as [d|]; simpl in *.
    - destruct Hc as (Hsize & _ & Hwc). rewrite Hprev in Hwc. tauto.
    - rewrite lookup_empty in Hprev. discriminate. }
  destruct Hv as [-> Hsize].
  destruct (merge_unfold entry w c1) as (c2 & jobs & Hmerge & _ & _ & Hlast2).
  rewrite Hp1 in Hmerge. unfold water_stage in Hmerge.
  rewrite dict_update_lookup, Hfetched, Hprev in Hmerge. simpl in Hmerge.
  set (d2 := dict_update (previous_data c) (fetched_updates entry w c1)) in *.
  set (incr := if 0 <? _last_water_consumption c2
               then if _last_water_consumption c <? _last_water_consumption c2
                    then _last_water_consumption c
                    else _last_water_consumption c - _last_water_consumption c2
               else 0) in *.
  assert (Hincr : incr = 0).
  { subst incr. rewrite Hlast2, Hlast1, Z.ltb_irrefl, Z.sub_diag.
    destruct (0 <? _last_water_consumption c); reflexivity. }
  destruct (merged_outcome _ _ _ _ _ _ _ _ Hauth Hmerge) as [_ Hhigh].
  assert (Hge : (3 <= size (<["water_increment" := VInt incr]> d2))%nat).
  { etransitivity; [exact Hsize|].
    etransitivity; [apply (dict_update_size _ (fetched_updates entry w c1))|].
    fold d2. destruct (d2 !! "water_increment") eqn:E.
    - erewrite map_size_insert_Some; eauto.
    - rewrite map_size_insert_None; auto. }
  destruct (Hhigh Hge) as (Hres & _).
  exists (<["water_increment" := VInt incr]> d2). split; [exact Hres|]. split.
  - rewrite lookup_insert_ne by discriminate. subst d2.
    now rewrite dict_update_lookup, Hfetched.
  - rewrite lookup_insert_eq. now rewrite Hincr.
Qed.

(** X21: when the main fetch is not due, the cycle does not consult the
    summary endpoint: it runs the same whatever that endpoint would
    answer, and [_get_main_data] is not among its jobs. *)
Theorem main_not_due_skips_summary (entry : config_entry) (w : world)
    (c : coordinator) (f : string -> result response) :
  main_due entry w (ensure_auth entry w c).1.1 = false ->
  _async_update_data entry (with_summary_get f w) c =
    _async_update_data entry w c
  /\ ~ In GetMainData (run_jobs (_async_update_data entry w c)).
Proof.
  intros Hdue.
  assert (Hauth : ensure_auth entry (with_summary_get f w) c =
                  ensure_auth entry w c) by reflexivity.
  assert (Hbody : try_body entry (with_summary_get f w) c = try_body entry w c).
  { unfold try_body. rewrite Hauth.
    destruct (ensure_auth entry w c) as [[c1 auth] jobs1]. simpl in Hdue.
    destruct auth; [|reflexivity].
    unfold merge, main_stage.
    change (main_due entry (with_summary_get f w) c1) with (main_due entry w c1).
    rewrite Hdue. reflexivity. }
  split.
  - unfold _async_update_data. now rewrite Hbody.
  - rewrite update_jobs. unfold try_body.
    destruct (ensure_auth entry w c) as [[c1 auth] jobs1] eqn:Eauth.
    simpl in Hdue.
    assert (Hj1 : ~ In GetMainData jobs1).
    { unfold ensure_auth in Eauth. destruct (token_held c).
      - injection Eauth as _ _ <-. simpl. tauto.
      - destruct (_authenticate entry w c). injection Eauth as _ _ <-.
        simpl. intuition discriminate. }
    destruct auth; [|exact Hj1].
    unfold merge, main_stage. rewrite Hdue. simpl.
    destruct (water_stage _ _). simpl.
    rewrite in_app_iff. simpl. intuition discriminate.
Qed.

(** X22: a cycle hands over at most three jobs, in a fixed order:
    [_authenticate] first and only when no key is held, then
    [_get_main_data] at most once, then [_get_consumption_data] exactly
    once; a cycle whose authentication fails runs nothing else. *)
Theorem jobs_run_in_order (entry : config_entry) (w : world)
    (c : coordinator) :
  exists a rest,
    run_jobs (_async_update_data entry w c) = (a ++ rest)%list
    /\ a = (if token_held c then [] else [Authenticate])
    /\ match (ensure_auth entry w c).1.2 with
       | Ok _ => rest = [GetConsumptionData]
                 \/ rest = [GetMainData; GetConsumptionData]
       | Raise _ => rest = []
       end.
Proof.
  rewrite update_jobs. unfold try_body, ensure_auth.
  destruct (token_held c).
  - exists [], (merge entry w c).2. simpl.
    pose proof (merge_jobs entry w c) as Hjobs.
    destruct (merge entry w c) as [[c3 merged] jobs2]. simpl in *. auto.
  - destruct (_authenticate entry w c) as [c1 [u|e]]; simpl.
    + exists [Authenticate], (merge entry w c1).2.
      pose proof (merge_jobs entry w c1) as Hjobs.
      destruct (merge entry w c1) as [[c3 merged] jobs2]. simpl in *. auto.
    + exists [Authenticate], []. auto.
Qed.

End CycleProperties.

Lemma held_key_is_never_renewed_witness :
  receipt_line_key
    (run_cycles (H := Fixture.lib) (H0 := Fixture.const) Fixture.entry
       [Fixture.offline; Fixture.main_down "day"] Fixture.warm)
    = Some "K1".
Proof.
  destruct (held_key_is_never_renewed (H := Fixture.lib) (H0 := Fixture.const)
              Fixture.entry [Fixture.offline; Fixture.main_down "day"]
              Fixture.warm) as [Hkey _].
  - reflexivity.
  - intros v Hv. vm_compute in Hv. injection Hv as <-. eexists. reflexivity.
  - exact Hkey.
Defined.

Lemma stale_reading_counts_nothing_witness :
  let c := run_cycles (H := Fixture.lib) (H0 := Fixture.const) Fixture.entry
             [Fixture.online "day"] init in
  exists d,
    run_result (_async_update_data (H := Fixture.lib) (H0 := Fixture.const)
                  Fixture.entry Fixture.offline c) = Ok d
    /\ d !! "water_consumption" = Some (VInt 150)
    /\ d !! "water_increment" = Some (VInt 0).
Proof.
  intros c.
  apply (stale_reading_counts_nothing (H := Fixture.lib) (H0 := Fixture.const)
           Fixture.entry Fixture.offline c c []).
  - apply consistent_run. apply consistent_init.
  - vm_compute. reflexivity.
  - vm_compute. reflexivity.
  - vm_compute. reflexivity.
Defined.

Lemma main_not_due_skips_summary_witness :
  let c := set_last_main_update 9000 Fixture.warm in
  _async_update_data (H := Fixture.lib) (H0 := Fixture.const) Fixture.entry
    (with_summary_get
       (fun _ => Ok {| status_code := 200; response_json := Ok Fixture.summary |})
       Fixture.offline) c
  = _async_update_data (H := Fixture.lib) (H0 := Fixture.const) Fixture.entry
      Fixture.offline c.
Proof.
  intros c.
  apply (main_not_due_skips_summary (H := Fixture.lib) (H0 := Fixture.const)
           Fixture.entry Fixture.offline c).
  reflexivity.
Defined.

(** ** The binary sensors *)

Section SensorFacts.
Context `{PyLib} `{Const}.

(** X23: after a cycle the entities are available exactly if the cycle
    returned a snapshot; after a failed cycle they are unavailable, but
    the published snapshot and every [is_on] are what they were. *)
Theorem availability_follows_last_cycle (entry : config_entry) (w : world)
    (c : coordinator) :
  available (async_refresh entry w c) =
    is_ok (run_result (_async_update_data entry w c))
  /\ (is_ok (run_result (_async_update_data entry w c)) = false ->
      data (async_refresh entry w c) = data c
      /\ forall sensor_type,
           is_on (async_refresh entry w c) sensor_type = is_on c sensor_type).
Proof.
  destruct (run_result (_async_update_data entry w c)) as [d|err] eqn:Eres.
  - split; [|discriminate]. unfold async_refresh. rewrite Eres. reflexivity.
  - destruct (failed_cycle_keeps_data _ _ _ _ Eres) as [Hdata Hav].
    split; [exact Hav|]. intros _. split; [exact Hdata|].
    intros sensor_type. unfold is_on. now rewrite Hdata.
Qed.

(** X24: in a state reached from [__init__] with a snapshot published,
    the sensors [power_outage] and [salt_alarm] read a boolean, [False]
    when the field is missing. *)
Theorem alarm_sensors_read_booleans (entry : config_entry) (ws : list world)
    (sensor_type : string) :
  In sensor_type bool_fields ->
  is_Some (data (run_cycles entry ws init)) ->
  exists b,
    is_on (run_cycles entry ws init) sensor_type = Some (VJson (JBool b)).
Proof.
  intros Hin [d Hd].
  destruct (consistent_run entry ws init consistent_init) as [_ Hc].
  unfold is_on. rewrite Hd in *. destruct Hc as (_ & Htyped & _).
  destruct (d !! sensor_type) as [v|] eqn:Ev; simpl.
  - destruct (Htyped _ _ Ev) as (_ & Hbool & _).
    destruct (Hbool Hin) as [b ->]. eauto.
  - eauto.
Qed.

End SensorFacts.

Lemma alarm_sensors_read_booleans_witness :
  exists b,
    is_on (run_cycles (H := Fixture.lib) (H0 := Fixture.const) Fixture.entry
             [Fixture.online "day"] init) "salt_alarm"
    = Some (VJson (JBool b)).
Proof.
  apply (alarm_sensors_read_booleans (H := Fixture.lib) (H0 := Fixture.const)
           Fixture.entry [Fixture.online "day"] "salt_alarm").
  - simpl. tauto.
  - vm_compute. eauto.
Defined.

Lemma append_injective s t1 t2 :
  String.append s t1 = String.append s t2 -> t1 = t2.
Proof.
  induction s as [|c s IH]; [auto|].
  rewrite !append_cons. intros [= Heq]. auto.
Qed.

(** X25: two sensors of one device have different unique ids. *)
Theorem unique_id_separates_sensors (serial t1 t2 : string) :
  unique_id serial t1 = unique_id serial t2 -> t1 = t2.
Proof.
  unfold unique_id. intros Heq.
  apply append_injective in Heq. now apply append_injective in Heq.
Qed.

Lemma unique_id_separates_sensors_witness : "salt_alarm" = "salt_alarm".
Proof.
  apply (unique_id_separates_sensors "SN401" "salt_alarm" "salt_alarm").
  reflexivity.
Defined.

(** ** More on the counter *)

Lemma increments_from_bounds last vs :
  0 <= last ->
  Forall (fun v => 0 <= v) vs ->
  Forall2 (fun i v => 0 <= i <= v) (increments_from last vs) vs.
Proof.
  intros Hlast Hvs. revert last Hlast.
  induction Hvs as [|v vs Hv _ IH]; intros last Hlast; simpl.
  - constructor.
  - constructor; [|now apply IH].
    destruct (Z.ltb_spec 0 last); [|lia].
    destruct (Z.ltb_spec v last); lia.
Qed.

(** X26: with non-negative readings, an increment is never negative
    and never more than the reading it was computed from. *)
Theorem increment_within_reading (vs : list Z) :
  Forall (fun v => 0 <= v) vs ->
  Forall2 (fun i v => 0 <= i <= v) (increments vs) vs.
Proof. intros Hvs. apply increments_from_bounds; [lia|assumption]. Qed.

Lemma increment_within_reading_witness :
  Forall2 (fun i v => 0 <= i <= v) (increments [0; 150; 140; 300])
    [0; 150; 140; 300].
Proof.
  apply (increment_within_reading [0; 150; 140; 300]).
  repeat constructor; lia.
Defined.

Lemma last_default (v : Z) (vs : list Z) (a b : Z) :
  List.last (v :: vs) a = List.last (v :: vs) b.
Proof.
  revert v. induction vs as [|v' vs IH]; intros v; [reflexivity|].
  change (List.last (v' :: vs) a = List.last (v' :: vs) b). apply IH.
Qed.

(** X27: from a positive baseline, while the readings never fall, the
    increments add up to the last reading minus the baseline. *)
Theorem increments_add_up (last : Z) (vs : list Z) :
  0 < last ->
  ascending last vs ->
  total (increments_from last vs) = List.last vs last - last.
Proof.
  revert last. induction vs as [|v vs IH]; intros last Hlast Hasc.
  - simpl. lia.
  - destruct Hasc as [Hle Hasc].
    cbn [increments_from compute_increment total fold_right].
    fold (total (increments_from v vs)).
    rewrite IH by (assumption || lia).
    destruct (Z.ltb_spec 0 last); [|lia].
    destruct (Z.ltb_spec v last); [lia|].
    destruct vs as [|v' vs]; [simpl; lia|].
    change (List.last (v :: v' :: vs) last) with (List.last (v' :: vs) last).
    rewrite (last_default v' vs last v). lia.
Qed.

Lemma increments_add_up_witness :
  total (increments_from 100 [120; 120; 180]) = 80.
Proof.
  apply (increments_add_up 100 [120; 120; 180]).
  - lia.
  - simpl. lia.
Defined.

(** ** The user step of the config flow *)

Section ConfigFlowFacts.
Context `{FlowEnv}.

Lemma require_lookup ui k (errors : gmap string string) j :
  require ui k errors !! j =
    if String.eqb j k && negb (truthy (input_get ui k))
    then Some "required" else errors !! j.
Proof.
  unfold require. destruct (truthy (input_get ui k)); simpl.
  - now rewrite andb_false_r.
  - rewrite andb_true_r. destruct (String.eqb_spec j k) as [->|Hne].
    + apply lookup_insert_eq.
    + now rewrite lookup_insert_ne by congruence.
Qed.

Lemma required_errors_lookup ui k msg :
  required_errors ui !! k = Some msg <->
  msg = "required"
  /\ (k = CONF_USERNAME \/ k = CONF_PASSWORD \/ k = CONF_SERIAL_NUMBER)
  /\ truthy (input_get ui k) = false.
Proof.
  unfold required_errors. rewrite !require_lookup, lookup_empty.
  destruct (String.eqb_spec k CONF_SERIAL_NUMBER) as [Hs|Hs];
    destruct (String.eqb_spec k CONF_PASSWORD) as [Hp|Hp];
    destruct (String.eqb_spec k CONF_USERNAME) as [Hu|Hu];
    destruct (truthy (input_get ui CONF_SERIAL_NUMBER)) eqn:Ts;
    destruct (truthy (input_get ui CONF_PASSWORD)) eqn:Tp;
    destruct (truthy (input_get ui CONF_USERNAME)) eqn:Tu;
    simpl; split;
    try (intros [= <-]); try (intros (-> & Hk & Hf));
    try (repeat split; auto; congruence);
    try (destruct Hk as [Hk|[Hk|Hk]]; congruence).
Qed.

Lemma required_errors_empty ui :
  required_errors ui = ∅ <->
  truthy (input_get ui CONF_USERNAME) = true
  /\ truthy (input_get ui CONF_PASSWORD) = true
  /\ truthy (input_get ui CONF_SERIAL_NUMBER) = true.
Proof.
  split.
  - intros Hempty.
    assert (Hk : forall k,
      k = CONF_USERNAME \/ k = CONF_PASSWORD \/ k = CONF_SERIAL_NUMBER ->
      truthy (input_get ui k) = true).
    { intros k Hk. destruct (truthy (input_get ui k)) eqn:E; [reflexivity|].
      assert (Hl : required_errors ui !! k = Some "required")
        by (apply required_errors_lookup; auto).
      rewrite Hempty, lookup_empty in Hl. discriminate. }
    repeat split; apply Hk; auto.
  - intros (Hu & Hp & Hs). unfold required_errors, require.
    now rewrite Hu, Hp, Hs.
Qed.

(** X28: the form comes back with an error exactly for each of the
    three required fields that is missing or empty, and the error is
    always "required". *)
Theorem required_errors_exact (ui : gmap string json) (k msg : string) :
  required_errors ui !! k = Some msg <->
  msg = "required"
  /\ (k = CONF_USERNAME \/ k = CONF_PASSWORD \/ k = CONF_SERIAL_NUMBER)
  /\ truthy (input_get ui k) = false.
Proof. exact (required_errors_lookup ui k msg). Qed.


End ConfigFlowFacts.

